(** * extend-audio: a shallow embedding of the augmentation core

    The two Python sources, [extend_audio.py] (a script of free functions) and
    [audio_augmentation.py] (the [AudioAugmentor] class), are embedded as Rocq
    functions over lists of samples.

    - Python [int] is [Z]; Python [float] (configuration scalars, ramps,
      noise draws) is the primitive binary64 [float] of Rocq, so [int(x)],
      [0.05 * sr] and the like evaluate exactly as CPython evaluates them.
    - A numpy array is a [list] of samples.  numpy arrays are generic in their
      dtype; the sample arithmetic is the class [Dtype], with the binary64
      instance [float64] (what numpy computes) and the instance [exact] over
      the canonical rationals (arithmetic without rounding).
    - A Python exception is the left summand of [result]; functions that draw
      random numbers thread the generator state explicitly.
    - [librosa.effects.time_stretch] and the random generator of numpy are not
      code of the repository: they are the fields of the class [Extern].
    - Facts about binary64 that hold for every input (the sign of a product)
      come from the Standard Library's specification of the primitive floats
      ([FloatAxioms]); facts about one input are computed. *)

From Stdlib Require Import String.
From Stdlib Require Import ZArith List Bool Lia FinFun.
From Stdlib Require Import PrimFloat FloatOps SpecFloat FloatAxioms.
From Stdlib Require Uint63.
From Stdlib Require Import QArith Qcanon Qcabs.
Import ListNotations.

Close Scope Qc_scope.
Close Scope Q_scope.
Open Scope list_scope.
Open Scope Z_scope.

(* Decimal literals such as 0.05 denote the nearest binary64, as in Python. *)
Set Warnings "-inexact-float".

(** ** Python exceptions and the error monad *)

Inductive exn : Type :=
| ValueError (msg : string)
| ZeroDivisionError
| OverflowError
| ParameterError (msg : string).

Definition result (X : Type) : Type := (exn + X)%type.

Definition Ok {X : Type} (x : X) : result X := inr x.
Definition Raise {X : Type} (e : exn) : result X := inl e.

Definition bind {X Y : Type} (m : result X) (k : X -> result Y) : result Y :=
  match m with
  | inl e => inl e
  | inr x => k x
  end.

Notation "x <- m ;; k" := (bind m (fun x => k))
  (at level 61, m at next level, right associativity).

(** Code that consumes random draws: a state and error monad over the
    generator state [G]. *)
Definition rand (G X : Type) : Type := G -> result (X * G).

Definition ret {G X : Type} (x : X) : rand G X := fun g => Ok (x, g).

Definition bindR {G X Y : Type} (m : rand G X) (k : X -> rand G Y) : rand G Y :=
  fun g => match m g with
           | inl e => inl e
           | inr (x, g') => k x g'
           end.

Definition lift {G X : Type} (m : result X) : rand G X :=
  fun g => match m with
           | inl e => inl e
           | inr x => Ok (x, g)
           end.

Notation "x <~ m ;; k" := (bindR m (fun x => k))
  (at level 61, m at next level, right associativity).

(** ** Python scalars *)

(** [float(z)] for a Python int: the nearest binary64 (exact below 2^53). *)
Definition py_float (z : Z) : float :=
  SF2Prim (binary_normalize prec emax z 0 false).

(** The integer part of [m * 2^e]. *)
Definition trunc_magnitude (m : positive) (e : Z) : Z :=
  match e with
  | Z0 => Zpos m
  | Zpos p => Zpos m * 2 ^ Zpos p
  | Zneg p => Zpos m / 2 ^ Zpos p
  end.

(** [int(x)] for a Python float: truncation toward zero; [nan] and the
    infinities raise. *)
Definition py_int (x : float) : result Z :=
  match Prim2SF x with
  | S754_zero _ => Ok 0
  | S754_finite s m e =>
      Ok (if s then - trunc_magnitude m e else trunc_magnitude m e)
  | S754_infinity _ => Raise OverflowError
  | S754_nan => Raise (ValueError "cannot convert float NaN to integer")
  end.

(** [a / b] on two Python ints (true division): the correctly rounded
    quotient, which for operands below 2^53 is the binary64 quotient of the
    two converted operands. *)
Definition py_truediv (a b : Z) : result float :=
  if b =? 0 then Raise ZeroDivisionError
  else Ok (PrimFloat.div (py_float a) (py_float b)).

(** [int(np.ceil(a / b))] on two Python ints.  The operands are lengths of
    arrays and target lengths; for operands below 2^53 the correctly rounded
    quotient has the same ceiling as the exact one (a quotient that is not
    an integer is at least [1 / b] away from the next integer, more than
    half a unit in the last place), so the ceiling is taken on [Z].
    [np_ceil_div_binary64] below is the same expression evaluated in
    binary64. *)
Definition np_ceil_div (a b : Z) : result Z :=
  if b =? 0 then Raise ZeroDivisionError
  else Ok (- ((- a) / b)).

(** [np.ceil(x)] on a binary64. *)
Definition np_ceil (x : float) : float :=
  match Prim2SF x with
  | S754_finite s m (Zneg p) =>
      let q := Zpos m / 2 ^ Zpos p in
      let r := Zpos m mod 2 ^ Zpos p in
      if s then (if q =? 0 then (-0)%float else py_float (- q))
      else py_float (if r =? 0 then q else q + 1)
  | _ => x
  end.

Definition np_ceil_div_binary64 (a b : Z) : result Z :=
  x <- py_truediv a b ;; py_int (np_ceil x).

(** [range(lo, hi)]. *)
Definition py_range (lo hi : Z) : list Z :=
  map (fun i => lo + Z.of_nat i) (seq 0 (Z.to_nat (hi - lo))).

(** [for x in xs: acc = body(acc, x)], stopping at the first exception. *)
Fixpoint for_each {X S : Type} (body : S -> X -> result S) (xs : list X) (acc : S)
    : result S :=
  match xs with
  | nil => Ok acc
  | x :: r => acc' <- body acc x ;; for_each body r acc'
  end.

(** ** numpy arrays as lists *)

Definition len {A : Type} (l : list A) : Z := Z.of_nat (length l).

(** How Python resolves one bound of a slice against a length [n]. *)
Definition clip_index (n i : Z) : Z :=
  if i <? 0 then Z.max 0 (i + n) else Z.min i n.

Definition slice_lo (n : Z) (start : option Z) : Z :=
  match start with None => 0 | Some s => clip_index n s end.

Definition slice_hi (n : Z) (stop : option Z) : Z :=
  match stop with None => n | Some e => clip_index n e end.

(** [l[start:stop]]. *)
Definition py_slice {A : Type} (l : list A) (start stop : option Z) : list A :=
  let lo := slice_lo (len l) start in
  let hi := slice_hi (len l) stop in
  firstn (Z.to_nat (hi - lo)) (skipn (Z.to_nat lo) l).

Definition map2 {A B C : Type} (f : A -> B -> C) (l : list A) (v : list B) : list C :=
  map (fun p => f (fst p) (snd p)) (combine l v).

(** [l[start:stop] op= v]: the slice is updated in place with [f old new];
    [v] must have the length of the slice or length one (broadcast). *)
Definition np_islice {A B : Type} (f : A -> B -> A) (l : list A)
    (start stop : option Z) (v : list B) : result (list A) :=
  let lo := Z.to_nat (slice_lo (len l) start) in
  let k := Z.to_nat (slice_hi (len l) stop - slice_lo (len l) start) in
  let old := firstn k (skipn lo l) in
  if Nat.eqb (length v) k then
    Ok (firstn lo l ++ map2 f old v ++ skipn (lo + k) l)
  else
    match v with
    | b :: nil => Ok (firstn lo l ++ map (fun a => f a b) old ++ skipn (lo + k) l)
    | _ => Raise (ValueError "operands could not be broadcast together")
    end.

(** [np.tile(l, reps)] on a 1-d array. *)
Definition np_tile {A : Type} (l : list A) (reps : Z) : result (list A) :=
  match l with
  | [] => Ok []
  | _ =>
      if reps <? 0 then Raise (ValueError "repeats may not contain negative values")
      else Ok (concat (repeat l (Z.to_nat reps)))
  end.

(** [np.linspace(start, stop, num)] as numpy computes it. *)
Definition set_last {A : Type} (l : list A) (x : A) : list A :=
  match l with
  | [] => []
  | _ => removelast l ++ [x]
  end.

Definition np_linspace (start stop : float) (num : Z) : result (list float) :=
  if num <? 0 then Raise (ValueError "Number of samples must be non-negative")
  else
    let div := num - 1 in
    let delta := (stop - start)%float in
    let y := map py_float (py_range 0 num) in
    let y :=
      if 0 <? div then
        let step := (delta / py_float div)%float in
        if (step =? 0)%float
        then map (fun v => (v / py_float div * delta)%float) y
        else map (fun v => (v * step)%float) y
      else map (fun v => (v * delta)%float) y in
    let y := map (fun v => (v + start)%float) y in
    Ok (if 1 <? num then set_last y stop else y).

(** ** Sample arithmetic *)

Class Dtype (A : Type) : Type := {
  zero : A;
  add : A -> A -> A;
  mul : A -> A -> A;
  div : A -> A -> A;
  absv : A -> A;
  geb : A -> A -> bool;
  gtb : A -> A -> bool;
  isnan : A -> bool;
  of_float : float -> A
}.

(** binary64, the arithmetic of numpy's default dtype. *)
#[export] Instance float64 : Dtype float := {
  zero := 0%float;
  add := PrimFloat.add;
  mul := PrimFloat.mul;
  div := PrimFloat.div;
  absv := PrimFloat.abs;
  geb := fun x y => PrimFloat.leb y x;
  gtb := fun x y => PrimFloat.ltb y x;
  isnan := PrimFloat.is_nan;
  of_float := fun x => x
}.

(** The rational number a finite binary64 denotes (0 for [nan] and the
    infinities, which have no exact counterpart). *)
Definition Q_of_float (x : float) : Q :=
  match Prim2SF x with
  | S754_finite s m e =>
      let v := match e with
               | Z0 => inject_Z (Zpos m)
               | Zpos p => inject_Z (Zpos m * 2 ^ Zpos p)
               | Zneg p => Qmake (Zpos m) (2 ^ p)
               end in
      if s then Qopp v else v
  | _ => 0%Q
  end.

(** Arithmetic without rounding, on the canonical rationals. *)
#[export] Instance exact : Dtype Qc := {
  zero := Q2Qc 0;
  add := Qcplus;
  mul := Qcmult;
  div := Qcdiv;
  absv := Qcabs;
  geb := fun x y => Qle_bool y x;
  gtb := fun x y => negb (Qle_bool x y);
  isnan := fun _ => false;
  of_float := fun x => Q2Qc (Q_of_float x)
}.

Section Numpy.
Context {A : Type} `{Dtype A}.

(** [np.zeros(n)]. *)
Definition np_zeros (n : Z) : result (list A) :=
  if n <? 0 then Raise (ValueError "negative dimensions are not allowed")
  else Ok (repeat zero (Z.to_nat n)).

(** [np.maximum] on two scalars: a [nan] wins. *)
Definition np_maximum (a b : A) : A :=
  if geb a b || isnan a then a else b.

(** [np.max(l)]. *)
Definition np_max (l : list A) : result A :=
  match l with
  | [] => Raise (ValueError "zero-size array to reduction operation maximum which has no identity")
  | x :: r => Ok (fold_left np_maximum r x)
  end.

Definition np_abs (l : list A) : list A := map absv l.

(** [l * c], [l / c] for a scalar [c], and [l + v] elementwise. *)
Definition np_scale (l : list A) (c : A) : list A := map (fun x => mul x c) l.
Definition np_divide (l : list A) (c : A) : list A := map (fun x => div x c) l.
Definition np_add (l v : list A) : list A := map2 add l v.

(** [np.pad(l, (0, k))]. *)
Definition np_pad_right (l : list A) (k : Z) : list A :=
  l ++ repeat zero (Z.to_nat k).

(** [l + v] with the broadcasting rule written out: equal lengths, or one
    operand of length one. *)
Definition np_add_broadcast (l v : list A) : result (list A) :=
  if Nat.eqb (length l) (length v) then Ok (map2 add l v)
  else
    match l, v with
    | a :: nil, _ => Ok (map (fun y => add a y) v)
    | _, b :: nil => Ok (map (fun x => add x b) l)
    | _, _ => Raise (ValueError "operands could not be broadcast together")
    end.
End Numpy.

(** ** The external collaborators *)

Class Extern (A G : Type) : Type := {
  (** [librosa.effects.time_stretch(y, rate=rate)] *)
  librosa_time_stretch : list A -> float -> result (list A);
  (** one draw of [N(loc, scale)] *)
  draw_normal : float -> float -> G -> float * G;
  (** [np.random.uniform(low, high)] *)
  draw_uniform : float -> float -> G -> float * G
}.

Section Random.
Context {A G : Type} `{Extern A G}.

Fixpoint draws (loc scale : float) (n : nat) (g : G) : list float * G :=
  match n with
  | O => ([], g)
  | S n' =>
      let (x, g1) := draw_normal loc scale g in
      let (r, g2) := draws loc scale n' g1 in
      (x :: r, g2)
  end.

(** [np.random.normal(loc, scale, size)]. *)
Definition np_random_normal (loc scale : float) (size : Z) : rand G (list float) :=
  fun g =>
    if size <? 0 then Raise (ValueError "negative dimensions are not allowed")
    else if (scale <? 0)%float then Raise (ValueError "scale < 0")
    else Ok (draws loc scale (Z.to_nat size) g).

Definition np_random_uniform (low high : float) : rand G float :=
  fun g => Ok (draw_uniform low high g).
End Random.

(** ** The seam loop of the two pipelines

    [extend_audio_method3_comprehensive] and [AudioAugmentor.augment_audio]
    contain the same loop, [for i in range(1, num_repeats)], which fades in the
    samples after each seam; [fade_in_step] is one turn of it.  The loop
    writes into [repeated], a view of the array [np.tile] has just made; no
    array of the caller is touched, so the loop is a function from the old
    buffer to the new one. *)

Section Seams.
Context {A : Type} `{Dtype A}.

Definition fade_in_step (period fade_length : Z)
    (repeated : list A) (i : Z) : result (list A) :=
  let start_idx := i * period in
  if (start_idx <? len repeated) && (start_idx + fade_length <? len repeated) then
    fade <- np_linspace 0 1 fade_length ;;
    np_islice mul repeated (Some start_idx) (Some (start_idx + fade_length))
      (map of_float fade)
  else Ok repeated.

Definition fade_seams (period fade_length num_repeats : Z) (repeated : list A)
    : result (list A) :=
  for_each (fade_in_step period fade_length) (py_range 1 num_repeats) repeated.
End Seams.

(** ** extend_audio.py *)

Module extend_audio.
Section Script.
Context {A G : Type} `{Dtype A} `{Extern A G}.

Definition add_white_noise (audio : list A) (noise_level : float) : rand G (list A) :=
  noise <~ np_random_normal 0 noise_level (len audio) ;;
  ret (np_add audio (map of_float noise)).

Definition simple_reverb (audio : list A) (sr : Z) (room_size : float) : result (list A) :=
  delay <- py_int (py_float sr * 0.05 * room_size)%float ;;
  let decay := (0.3 * room_size)%float in
  reverb <- np_zeros (len audio + delay) ;;
  reverb <- np_islice (fun _ x => x) reverb None (Some (len audio)) audio ;;
  reverb <- np_islice add reverb (Some delay) None (np_scale audio (of_float decay)) ;;
  Ok (py_slice reverb None (Some (len audio))).

(** One turn of the seam loop of [extend_audio_method1_repeat]. *)
Definition crossfade_step (current_length fade_length : Z)
    (extended : list A) (i : Z) : result (list A) :=
  let start_idx := i * current_length in
  if (start_idx <? len extended) && (start_idx + fade_length <? len extended) then
    fade_out <- np_linspace 1 0 fade_length ;;
    fade_in <- np_linspace 0 1 fade_length ;;
    extended <-
      (if start_idx - fade_length >=? 0 then
         np_islice mul extended (Some (start_idx - fade_length)) (Some start_idx)
           (map of_float fade_out)
       else Ok extended) ;;
    np_islice mul extended (Some start_idx) (Some (start_idx + fade_length))
      (map of_float fade_in)
  else Ok extended.

(** The seam loop of [extend_audio_method1_repeat],
    [for i in range(1, num_repeats)]. *)
Definition crossfade_seams (current_length fade_length num_repeats : Z)
    (extended : list A) : result (list A) :=
  for_each (crossfade_step current_length fade_length) (py_range 1 num_repeats) extended.

Definition extend_audio_method1_repeat (audio : list A) (sr : Z)
    (target_duration : float) : result (list A) :=
  target_length <- py_int (target_duration * py_float sr)%float ;;
  let current_length := len audio in
  num_repeats <- np_ceil_div target_length current_length ;;
  extended <- np_tile audio num_repeats ;;
  fade_length <- py_int (0.05 * py_float sr)%float ;;
  extended <- crossfade_seams current_length fade_length num_repeats extended ;;
  Ok (py_slice extended None (Some target_length)).

Definition extend_audio_method2_stretch_repeat (audio : list A) (sr : Z)
    (target_duration : float) : result (list A) :=
  target_length <- py_int (target_duration * py_float sr)%float ;;
  stretched <- librosa_time_stretch audio 0.8%float ;;
  extended <-
    (if len stretched <? target_length then
       num_repeats <- np_ceil_div target_length (len stretched) ;;
       np_tile stretched num_repeats
     else Ok stretched) ;;
  Ok (py_slice extended None (Some target_length)).

Definition extend_audio_method3_comprehensive (audio : list A) (sr : Z)
    (target_duration noise_level : float) : rand G (list A) :=
  target_length <~ lift (py_int (target_duration * py_float sr)%float) ;;
  stretch_rate <~ np_random_uniform 0.75 0.85 ;;
  stretched <~ lift (librosa_time_stretch audio stretch_rate) ;;
  num_repeats <~ lift (np_ceil_div target_length (len stretched)) ;;
  tiled <~ lift (np_tile stretched num_repeats) ;;
  let repeated := py_slice tiled None (Some target_length) in
  fade_length <~ lift (py_int (0.05 * py_float sr)%float) ;;
  repeated <~ lift (fade_seams (len stretched) fade_length num_repeats repeated) ;;
  noisy <~ add_white_noise repeated noise_level ;;
  extended <~ lift (simple_reverb noisy sr 0.3) ;;
  ret (py_slice extended None (Some target_length)).

Definition extend_audio_method4_silence_padding (audio : list A) (sr : Z)
    (target_duration : float) : rand G (list A) :=
  target_length <~ lift (py_int (target_duration * py_float sr)%float) ;;
  let current_length := len audio in
  let silence_needed := target_length - current_length in
  let silence_before := silence_needed / 2 in
  let silence_after := silence_needed - silence_before in
  noise_before <~ np_random_normal 0 0.001 silence_before ;;
  noise_after <~ np_random_normal 0 0.001 silence_after ;;
  ret (map of_float noise_before ++ audio ++ map of_float noise_after).

Definition normalize_audio (audio : list A) (target_peak : float) : result (list A) :=
  max_val <- np_max (np_abs audio) ;;
  if gtb max_val zero
  then Ok (np_scale (np_divide audio max_val) (of_float target_peak))
  else Ok audio.

(** The default of the keyword [target_peak]. *)
Definition default_target_peak : float := 0.95.
End Script.
End extend_audio.

(** ** audio_augmentation.py *)

Module audio_augmentation.
Section Class.
Context {A G : Type} `{Dtype A} `{Extern A G}.

Record AudioAugmentor : Type := {
  target_duration : float;
  sample_rate : Z;
  target_length : Z
}.

(** [AudioAugmentor.__init__]. *)
Definition init (target_duration : float) (sample_rate : Z) : result AudioAugmentor :=
  target_length <- py_int (target_duration * py_float sample_rate)%float ;;
  Ok {| target_duration := target_duration;
        sample_rate := sample_rate;
        target_length := target_length |}.

Definition add_white_noise (self : AudioAugmentor) (audio : list A)
    (noise_level : float) : rand G (list A) :=
  noise <~ np_random_normal 0 noise_level (len audio) ;;
  ret (np_add audio (map of_float noise)).

Definition add_background_noise (self : AudioAugmentor) (audio noise_audio : list A)
    (noise_level : float) : result (list A) :=
  noise_audio <-
    (if len noise_audio <? len audio then
       repeats <- np_ceil_div (len audio) (len noise_audio) ;;
       np_tile noise_audio repeats
     else Ok noise_audio) ;;
  let noise_audio := py_slice noise_audio None (Some (len audio)) in
  let noise_audio := np_scale noise_audio (of_float noise_level) in
  np_add_broadcast audio noise_audio.

Definition time_stretch (self : AudioAugmentor) (audio : list A) (rate : float)
    : result (list A) :=
  librosa_time_stretch audio rate.

Definition add_reverb (self : AudioAugmentor) (audio : list A) (room_size : float)
    : result (list A) :=
  delay <- py_int (py_float (sample_rate self) * 0.05 * room_size)%float ;;
  let decay := (0.3 * room_size)%float in
  reverb <- np_zeros (len audio + delay) ;;
  reverb <- np_islice (fun _ x => x) reverb None (Some (len audio)) audio ;;
  reverb <- np_islice add reverb (Some delay) None (np_scale audio (of_float decay)) ;;
  Ok (py_slice reverb None (Some (len audio))).

Definition repeat_and_fade (self : AudioAugmentor) (audio : list A) (num_repeats : Z)
    : result (list A) :=
  repeated <- np_tile audio num_repeats ;;
  fade_length <- py_int (0.1 * py_float (sample_rate self))%float ;;
  fade_in <- np_linspace 0 1 fade_length ;;
  fade_out <- np_linspace 1 0 fade_length ;;
  if len repeated >? fade_length * 2 then
    repeated <- np_islice mul repeated None (Some fade_length) (map of_float fade_in) ;;
    np_islice mul repeated (Some (- fade_length)) None (map of_float fade_out)
  else Ok repeated.

Definition pad_with_silence (self : AudioAugmentor) (audio : list A)
    (silence_before silence_after : float) : result (list A) :=
  silence_before_samples <- py_int (silence_before * py_float (sample_rate self))%float ;;
  silence_after_samples <- py_int (silence_after * py_float (sample_rate self))%float ;;
  before <- np_zeros silence_before_samples ;;
  after <- np_zeros silence_after_samples ;;
  Ok (before ++ audio ++ after).

Definition extend_to_target_length (self : AudioAugmentor) (audio : list A)
    (method : string) : result (list A) :=
  let current_length := len audio in
  if current_length >=? target_length self then
    Ok (py_slice audio None (Some (target_length self)))
  else if String.eqb method "stretch" then
    rate <- py_truediv current_length (target_length self) ;;
    stretched <- time_stretch self audio rate ;;
    Ok (py_slice stretched None (Some (target_length self)))
  else if String.eqb method "repeat" then
    num_repeats <- np_ceil_div (target_length self) current_length ;;
    repeated <- np_tile audio num_repeats ;;
    Ok (py_slice repeated None (Some (target_length self)))
  else if String.eqb method "stretch_and_repeat" then
    let stretch_rate := 0.7%float in
    stretched <- time_stretch self audio stretch_rate ;;
    if len stretched <? target_length self then
      num_repeats <- np_ceil_div (target_length self) (len stretched) ;;
      result <- np_tile stretched num_repeats ;;
      Ok (py_slice result None (Some (target_length self)))
    else
      Ok (py_slice stretched None (Some (target_length self)))
  else if String.eqb method "pad_silence" then
    let silence_needed := target_length self - current_length in
    let silence_before := silence_needed / 2 in
    let silence_after := silence_needed - silence_before in
    before <- np_zeros silence_before ;;
    after <- np_zeros silence_after ;;
    Ok (before ++ audio ++ after)
  else
    Raise (ValueError ("Unknown method: " ++ method)).

Definition augment_audio (self : AudioAugmentor) (audio : list A)
    (method : string) (noise_level : float) : rand G (list A) :=
  extended <~
    (if String.eqb method "simple" then
       lift (extend_to_target_length self audio "repeat")
     else if String.eqb method "stretch" then
       lift (extend_to_target_length self audio "stretch")
     else if String.eqb method "comprehensive" then
       stretched <~ lift (time_stretch self audio 0.8%float) ;;
       num_repeats <~ lift (np_ceil_div (target_length self) (len stretched)) ;;
       tiled <~ lift (np_tile stretched num_repeats) ;;
       let repeated := py_slice tiled None (Some (target_length self)) in
       fade_length <~ lift (py_int (0.05 * py_float (sample_rate self))%float) ;;
       repeated <~ lift (fade_seams (len stretched) fade_length num_repeats repeated) ;;
       noisy <~ add_white_noise self repeated noise_level ;;
       lift (add_reverb self noisy 0.3%float)
     else
       lift (Raise (ValueError ("Unknown method: " ++ method)))) ;;
  let extended :=
    if len extended >? target_length self then
      py_slice extended None (Some (target_length self))
    else if len extended <? target_length self then
      np_pad_right extended (target_length self - len extended)
    else extended in
  max_val <~ lift (np_max (np_abs extended)) ;;
  ret (np_scale (np_divide extended max_val) (of_float 0.95%float)).
End Class.
End audio_augmentation.

(** ** Stand-ins for the external collaborators

    Used to run the embedding on concrete inputs: a nearest-neighbour
    stretcher of [round(len / rate)] samples, and a generator whose state is a
    counter and whose normal draws alternate between [loc + scale] and
    [loc - scale]. *)

Definition nearest_stretch (audio : list float) (rate : float) : result (list float) :=
  if (rate <=? 0)%float then Raise (ParameterError "rate must be a positive number")
  else
    n <- py_int (py_float (len audio) / rate + 0.5)%float ;;
    for_each (fun acc i =>
                j <- py_int (py_float i * rate)%float ;;
                Ok (acc ++ [nth (Z.to_nat j) audio (last audio 0%float)]))
             (py_range 0 n) [].

Definition counter_normal (loc scale : float) (g : nat) : float * nat :=
  ((if Nat.even g then loc + scale else loc - scale)%float, S g).

Definition counter_uniform (low high : float) (g : nat) : float * nat :=
  ((low + (high - low) * 0.5)%float, S g).

#[export] Instance stand_in : Extern float nat := {
  librosa_time_stretch := nearest_stretch;
  draw_normal := counter_normal;
  draw_uniform := counter_uniform
}.

(** ** Vocabulary of the statements *)

(** The ramps of the seam loops: [np.linspace(0, 1, n)] and
    [np.linspace(1, 0, n)]. *)
Definition ramp_up (n : Z) : list float :=
  match np_linspace 0 1 n with inr r => r | inl _ => [] end.

Definition ramp_down (n : Z) : list float :=
  match np_linspace 1 0 n with inr r => r | inl _ => [] end.


(** The four method names [extend_to_target_length] knows. *)
Definition known_method (m : string) : bool :=
  String.eqb m "stretch" || String.eqb m "repeat"
  || String.eqb m "stretch_and_repeat" || String.eqb m "pad_silence".

(** [round(x)] as the specification writes it: the nearest integer, ties to
    the even one (Python's [round]). *)
Definition round_nearest (x : float) : result Z :=
  match Prim2SF x with
  | S754_zero _ => Ok 0
  | S754_finite s m e =>
      let v := match e with
               | Z0 => Zpos m
               | Zpos p => Zpos m * 2 ^ Zpos p
               | Zneg p =>
                   let q := Zpos m / 2 ^ Zpos p in
                   let r := Zpos m mod 2 ^ Zpos p in
                   if 2 * r <? 2 ^ Zpos p then q
                   else if 2 ^ Zpos p <? 2 * r then q + 1
                   else if Z.even q then q else q + 1
               end in
      Ok (if s then - v else v)
  | S754_infinity _ => Raise OverflowError
  | S754_nan => Raise (ValueError "cannot convert float NaN to integer")
  end.

(** The three method names [augment_audio] knows. *)
Definition known_pipeline_method (m : string) : bool :=
  String.eqb m "simple" || String.eqb m "stretch" || String.eqb m "comprehensive".

(** What the code relies on in the external stretcher:
    [librosa.effects.time_stretch] begins with
    [if rate <= 0: raise ParameterError("rate must be a positive number")]. *)
Definition stretcher_checks_rate (A G : Type) `{Extern A G} : Prop :=
  forall (audio : list A) (rate : float),
    (rate <=? 0)%float = true ->
    librosa_time_stretch audio rate
      = Raise (ParameterError "rate must be a positive number").

(** The reverb as the specification words it: [delay] is the rounded
    [0.05 * sampleRate * roomSize], [decay] is [0.3 * roomSize], and
    [output[i]] is [signal[i]] below [delay] and
    [signal[i] + decay * signal[i - delay]] from [delay] on. *)
Definition reverb_reference {A : Type} `{Dtype A} (signal : list A) (sampleRate : Z)
    (roomSize : float) : result (list A) :=
  delay <- round_nearest (0.05 * py_float sampleRate * roomSize)%float ;;
  let decay := (0.3 * roomSize)%float in
  Ok (map (fun i : nat =>
             if Z.of_nat i <? delay then nth i signal zero
             else add (nth i signal zero)
                      (mul (of_float decay) (nth (i - Z.to_nat delay) signal zero)))
          (seq 0 (length signal))).

(** A sample that is a number: zero or finite, neither [nan] nor an
    infinity. *)
Definition finite_sample (x : float) : Prop :=
  match Prim2SF x with
  | S754_zero _ | S754_finite _ _ _ => True
  | _ => False
  end.

(** A silent sample of binary64: one of the two zeros. *)
Definition silent_sample (x : float) : Prop := x = 0%float \/ x = (-0)%float.

(** A binary64 that is not a negative finite number: [int] of it, when it
    is defined, is not negative. *)
Definition sf_nonneg (x : spec_float) : Prop :=
  match x with
  | S754_finite true _ _ => False
  | _ => True
  end.

Import extend_audio audio_augmentation.

(** * Properties *)

(** After a rewrite with the result of one statement: continue with the next. *)
Ltac next := unfold Ok; cbv beta iota.

(** ** Lists, slices and tiles *)

Lemma len_nonneg {A : Type} (l : list A) : 0 <= len l.
Proof. unfold len. lia. Qed.

Lemma len_app {A : Type} (l v : list A) : len (l ++ v) = len l + len v.
Proof. unfold len. rewrite length_app. lia. Qed.

Lemma len_repeat {A : Type} (x : A) (n : Z) : 0 <= n -> len (repeat x (Z.to_nat n)) = n.
Proof. intros Hn. unfold len. rewrite repeat_length. lia. Qed.

Lemma len_nil_iff {A : Type} (l : list A) : len l = 0 <-> l = [].
Proof.
  unfold len. destruct l as [|x r]; simpl; split; intros E; try reflexivity; try lia.
  discriminate E.
Qed.

Lemma len_pos {A : Type} (l : list A) : l <> [] -> 0 < len l.
Proof.
  intros Hne. pose proof (len_nonneg l).
  destruct (Z.eq_dec (len l) 0) as [E|]; [|lia].
  apply len_nil_iff in E. contradiction.
Qed.

Lemma py_slice_to {A : Type} (l : list A) (k : Z) :
  0 <= k -> py_slice l None (Some k) = firstn (Z.to_nat k) l.
Proof.
  intros Hk. unfold py_slice, slice_lo, slice_hi, clip_index.
  destruct (Z.ltb_spec k 0) as [Hneg|_]; [lia|].
  simpl skipn. rewrite Z.sub_0_r.
  destruct (Z.le_gt_cases k (len l)) as [Hle|Hgt].
  - rewrite Z.min_l by assumption. reflexivity.
  - rewrite Z.min_r by lia. unfold len in *.
    rewrite Nat2Z.id, firstn_all. symmetry. apply firstn_all2. lia.
Qed.

Lemma len_py_slice_to {A : Type} (l : list A) (k : Z) :
  0 <= k -> k <= len l -> len (py_slice l None (Some k)) = k.
Proof.
  intros Hk Hle. rewrite py_slice_to by assumption.
  unfold len in *. rewrite length_firstn. lia.
Qed.

Lemma length_concat_repeat {A : Type} (l : list A) (n : nat) :
  length (concat (repeat l n)) = (n * length l)%nat.
Proof.
  induction n as [|n IH]; simpl.
  - reflexivity.
  - rewrite length_app, IH. reflexivity.
Qed.

Lemma nth_concat_repeat {A : Type} (l : list A) (n i : nat) (d : A) :
  (i < n * length l)%nat ->
  nth i (concat (repeat l n)) d = nth (i mod length l) l d.
Proof.
  revert i. induction n as [|n IH]; intros i Hi; simpl in *.
  - lia.
  - destruct (Nat.lt_ge_cases i (length l)) as [Hlt|Hge].
    + rewrite app_nth1 by assumption. rewrite Nat.mod_small by assumption. reflexivity.
    + rewrite app_nth2 by assumption. rewrite IH by lia.
      f_equal.
      replace i with ((i - length l) + 1 * length l)%nat at 2 by lia.
      rewrite Nat.Div0.mod_add. reflexivity.
Qed.

Lemma np_tile_ok {A : Type} (l : list A) (reps : Z) :
  0 <= reps -> np_tile l reps = Ok (concat (repeat l (Z.to_nat reps))).
Proof.
  intros Hr. unfold np_tile. destruct l as [|x r].
  - f_equal. induction (Z.to_nat reps) as [|n IH]; simpl; [reflexivity|exact IH].
  - destruct (Z.ltb_spec reps 0); [lia|reflexivity].
Qed.

Lemma len_concat_repeat {A : Type} (l : list A) (reps : Z) :
  0 <= reps -> len (concat (repeat l (Z.to_nat reps))) = reps * len l.
Proof.
  intros Hr. unfold len. rewrite length_concat_repeat. lia.
Qed.

(** [n // 2] and [n - n // 2] split a non-negative [n] in two non-negative
    parts. *)
Lemma half_bounds (n : Z) : 0 <= n -> 0 <= n / 2 <= n.
Proof.
  intros Hn. split; [apply Z.div_pos; lia|]. apply Z.div_le_upper_bound; lia.
Qed.

(** The ceiling of [a / b] is the least [c] with [a <= c * b]. *)
Lemma np_ceil_div_spec (a b : Z) :
  0 < b ->
  exists c, np_ceil_div a b = Ok c /\ a <= c * b /\ (c - 1) * b < a.
Proof.
  intros Hb. unfold np_ceil_div.
  destruct (Z.eqb_spec b 0) as [E|_]; [lia|].
  eexists. split; [reflexivity|].
  pose proof (Z.div_mod (- a) b ltac:(lia)) as Hdm.
  pose proof (Z.mod_pos_bound (- a) b Hb) as Hm.
  nia.
Qed.

Lemma np_ceil_div_exact (k b : Z) : 0 < b -> np_ceil_div (k * b) b = Ok k.
Proof.
  intros Hb. unfold np_ceil_div.
  destruct (Z.eqb_spec b 0) as [E|_]; [lia|].
  f_equal. replace (- (k * b)) with ((- k) * b) by ring.
  rewrite Z.div_mul by lia. lia.
Qed.

(** ** Signs of the configuration scalars

    The lengths the code derives from the configuration ([target_length],
    [fade_length], the reverb delay) are [int] of a product of floats.  The
    sign of a binary64 product is the exclusive or of the signs of its
    factors, so these lengths are not negative when the configuration is
    positive. *)

Lemma Prim2SF_py_float (z : Z) :
  0 <= z < 2 ^ 63 -> Prim2SF (py_float z) = binary_normalize prec emax z 0 false.
Proof.
  intros Hz.
  assert (E : Uint63Axioms.to_Z (Uint63Axioms.of_Z z) = z).
  { symmetry. apply Uint63.is_int. exact Hz. }
  unfold py_float. rewrite <- E at 1.
  rewrite <- of_uint63_spec, SF2Prim_Prim2SF, of_uint63_spec, E. reflexivity.
Qed.

Lemma binary_round_aux_nonneg (mx ex : Z) (lx : location) :
  sf_nonneg (binary_round_aux prec emax false mx ex lx).
Proof.
  unfold binary_round_aux.
  destruct (shr_fexp prec emax mx ex lx) as [mrs' e'].
  destruct (shr_fexp prec emax _ e' loc_Exact) as [mrs'' e''].
  destruct (shr_m mrs''); simpl; trivial.
  match goal with |- context [if ?b then _ else _] => destruct b end; simpl; trivial.
Qed.

Lemma binary_normalize_nonneg (z : Z) :
  0 <= z -> sf_nonneg (binary_normalize prec emax z 0 false).
Proof.
  intros Hz. destruct z as [|m|m]; simpl; trivial; [|lia].
  unfold binary_round. destruct (shl_align m 0 _) as [mz ez].
  apply binary_round_aux_nonneg.
Qed.

Lemma py_float_nonneg (z : Z) : 0 <= z < 2 ^ 63 -> sf_nonneg (Prim2SF (py_float z)).
Proof.
  intros Hz. rewrite Prim2SF_py_float by assumption.
  apply binary_normalize_nonneg. lia.
Qed.

Lemma mul_nonneg (x y : float) :
  sf_nonneg (Prim2SF x) -> sf_nonneg (Prim2SF y) -> sf_nonneg (Prim2SF (x * y)).
Proof.
  rewrite mul_spec. unfold SF64mul, SFmul.
  destruct (Prim2SF x) as [sx|sx| |sx mx ex], (Prim2SF y) as [sy|sy| |sy my ey];
    simpl; trivial.
  destruct sx, sy; simpl; try contradiction. intros _ _.
  apply binary_round_aux_nonneg.
Qed.

Lemma positive_nonneg (x : float) : (0 <? x)%float = true -> sf_nonneg (Prim2SF x).
Proof.
  rewrite ltb_spec. change (Prim2SF 0) with (S754_zero false).
  destruct (Prim2SF x) as [s|s| |s m e]; simpl; trivial.
  destruct s; [discriminate|trivial].
Qed.

Lemma not_negative_nonneg (x : float) : (0 <=? x)%float = true -> sf_nonneg (Prim2SF x).
Proof.
  rewrite leb_spec. change (Prim2SF 0) with (S754_zero false).
  destruct (Prim2SF x) as [s|s| |s m e]; simpl; trivial.
  destruct s; [discriminate|trivial].
Qed.

Lemma trunc_magnitude_nonneg (m : positive) (e : Z) : 0 <= trunc_magnitude m e.
Proof.
  unfold trunc_magnitude. destruct e as [|p|p]; [lia| |].
  - apply Z.mul_nonneg_nonneg; [lia|]. apply Z.pow_nonneg. lia.
  - apply Z.div_pos; [lia|]. apply Z.pow_pos_nonneg; lia.
Qed.

Lemma py_int_nonneg (x : float) (v : Z) :
  sf_nonneg (Prim2SF x) -> py_int x = Ok v -> 0 <= v.
Proof.
  unfold py_int, Ok, Raise.
  destruct (Prim2SF x) as [s|s| |s m e]; intros Hs Hv; try discriminate Hv.
  - injection Hv as <-. lia.
  - destruct s; [contradiction|]. injection Hv as <-.
    apply trunc_magnitude_nonneg.
Qed.

Lemma target_length_nonneg (td : float) (sr tl : Z) :
  (0 <? td)%float = true -> 0 <= sr < 2 ^ 63 ->
  py_int (td * py_float sr)%float = Ok tl -> 0 <= tl.
Proof.
  intros Htd Hsr. apply py_int_nonneg, mul_nonneg.
  - apply positive_nonneg. exact Htd.
  - apply py_float_nonneg. exact Hsr.
Qed.

Lemma fade_length_nonneg (sr F : Z) :
  0 <= sr < 2 ^ 63 -> py_int (0.05 * py_float sr)%float = Ok F -> 0 <= F.
Proof.
  intros Hsr. apply py_int_nonneg, mul_nonneg.
  - apply positive_nonneg. reflexivity.
  - apply py_float_nonneg. exact Hsr.
Qed.

Lemma delay_nonneg (sr : Z) (room_size : float) (d : Z) :
  0 <= sr < 2 ^ 63 -> (0 <=? room_size)%float = true ->
  py_int (py_float sr * 0.05 * room_size)%float = Ok d -> 0 <= d.
Proof.
  intros Hsr Hrs. apply py_int_nonneg, mul_nonneg; [apply mul_nonneg|].
  - apply py_float_nonneg. exact Hsr.
  - apply positive_nonneg. reflexivity.
  - apply not_negative_nonneg. exact Hrs.
Qed.

(** ** In-place slice updates *)

Lemma clip_index_range (n i : Z) : 0 <= n -> 0 <= clip_index n i <= n.
Proof. intros Hn. unfold clip_index. destruct (Z.ltb_spec i 0); lia. Qed.

Lemma clip_index_id (n i : Z) : 0 <= i <= n -> clip_index n i = i.
Proof. intros Hi. unfold clip_index. destruct (Z.ltb_spec i 0); lia. Qed.

Lemma nth_map2 {A B C : Type} (f : A -> B -> C) (l : list A) (v : list B)
    (i : nat) (a : A) (b : B) (c : C) :
  length l = length v -> (i < length l)%nat ->
  nth i (map2 f l v) c = f (nth i l a) (nth i v b).
Proof.
  intros Hlen Hi. unfold map2.
  rewrite (nth_indep _ c (f (fst (a, b)) (snd (a, b)))).
  - rewrite (map_nth (fun p => f (fst p) (snd p))).
    rewrite combine_nth by assumption. reflexivity.
  - rewrite length_map, length_combine. lia.
Qed.

Lemma length_map2 {A B C : Type} (f : A -> B -> C) (l : list A) (v : list B) :
  length (map2 f l v) = Nat.min (length l) (length v).
Proof. unfold map2. rewrite length_map, length_combine. reflexivity. Qed.

(** A slice update whose right-hand side has the length of the slice keeps
    the length of the array, rewrites the samples of the slice and leaves
    the others as they are. *)
Lemma np_islice_spec {A B : Type} (f : A -> B -> A) (l : list A)
    (start stop : option Z) (v : list B) :
  let lo := slice_lo (len l) start in
  let hi := slice_hi (len l) stop in
  0 <= lo -> lo <= hi -> hi <= len l -> len v = hi - lo ->
  exists out,
    np_islice f l start stop v = Ok out /\
    length out = length l /\
    forall (i : nat) (d : A) (e : B), (i < length l)%nat ->
      nth i out d =
        if (lo <=? Z.of_nat i) && (Z.of_nat i <? hi)
        then f (nth i l d) (nth (i - Z.to_nat lo) v e)
        else nth i l d.
Proof.
  intros lo hi Hlo Hle Hhi Hv. unfold np_islice. fold lo hi.
  set (k := Z.to_nat (hi - lo)). set (n0 := Z.to_nat lo).
  assert (Hk : length v = k) by (unfold len in Hv; lia).
  rewrite Hk, Nat.eqb_refl.
  assert (Hn0 : (n0 + k <= length l)%nat) by (unfold len in *; lia).
  assert (Hold : length (firstn k (skipn n0 l)) = k).
  { rewrite length_firstn, length_skipn. lia. }
  eexists. split; [reflexivity|]. split.
  - rewrite !length_app, length_map2, Hold, Hk, length_firstn, length_skipn. lia.
  - intros i d e Hi.
    destruct (Z.leb_spec lo (Z.of_nat i)) as [H1|H1]; simpl.
    + destruct (Z.ltb_spec (Z.of_nat i) hi) as [H2|H2].
      * rewrite app_nth2 by (rewrite length_firstn; lia).
        rewrite length_firstn, Nat.min_l by lia.
        rewrite app_nth1 by (rewrite length_map2, Hold, Hk; lia).
        rewrite (nth_map2 f _ _ _ d e) by lia.
        f_equal. rewrite nth_firstn.
        destruct (Nat.ltb_spec (i - n0) k) as [_|Hc]; [|lia].
        rewrite nth_skipn. f_equal. lia.
      * rewrite app_nth2 by (rewrite length_firstn; lia).
        rewrite length_firstn, Nat.min_l by lia.
        rewrite app_nth2 by (rewrite length_map2, Hold, Hk; lia).
        rewrite length_map2, Hold, Hk, Nat.min_id.
        rewrite nth_skipn. f_equal. lia.
    + rewrite app_nth1 by (rewrite length_firstn; lia).
      rewrite nth_firstn.
      destruct (Nat.ltb_spec i n0) as [_|Hc]; [reflexivity|lia].
Qed.

(** The same for a slice given by two in-range bounds. *)
Lemma np_islice_between {A B : Type} (f : A -> B -> A) (l : list A)
    (lo hi : Z) (v : list B) :
  0 <= lo -> lo <= hi -> hi <= len l -> len v = hi - lo ->
  exists out,
    np_islice f l (Some lo) (Some hi) v = Ok out /\
    length out = length l /\
    forall (i : nat) (d : A) (e : B), (i < length l)%nat ->
      nth i out d =
        if (lo <=? Z.of_nat i) && (Z.of_nat i <? hi)
        then f (nth i l d) (nth (i - Z.to_nat lo) v e)
        else nth i l d.
Proof.
  intros Hlo Hle Hhi Hv.
  pose proof (np_islice_spec f l (Some lo) (Some hi) v) as S.
  simpl in S. rewrite !clip_index_id in S by lia.
  apply S; assumption.
Qed.

(** ** Ramps *)

Lemma length_set_last {A : Type} (l : list A) (x : A) : length (set_last l x) = length l.
Proof.
  destruct l as [|a r]; [reflexivity|].
  unfold set_last. rewrite length_app, removelast_firstn_len, length_firstn. simpl. lia.
Qed.

Lemma length_py_range (lo hi : Z) : length (py_range lo hi) = Z.to_nat (hi - lo).
Proof. unfold py_range. rewrite length_map, length_seq. reflexivity. Qed.

Lemma np_linspace_ok (start stop : float) (num : Z) :
  0 <= num ->
  exists r, np_linspace start stop num = Ok r /\ len r = num.
Proof.
  intros Hn. unfold np_linspace.
  destruct (Z.ltb_spec num 0) as [Hneg|_]; [lia|].
  eexists. split; [reflexivity|].
  unfold len.
  assert (E : forall y : list float, length y = Z.to_nat num ->
            Z.of_nat (length (if 1 <? num then set_last y stop else y)) = num).
  { intros y Hy. destruct (1 <? num); rewrite ?length_set_last, Hy; lia. }
  apply E.
  destruct (0 <? num - 1); [destruct (_ =? _)%float|];
    rewrite !length_map, length_py_range; f_equal; lia.
Qed.

Lemma ramp_up_linspace (num : Z) : 0 <= num -> np_linspace 0 1 num = Ok (ramp_up num).
Proof.
  intros Hn. unfold ramp_up.
  destruct (np_linspace_ok 0 1 num Hn) as [r [E _]]. rewrite E. reflexivity.
Qed.

Lemma ramp_down_linspace (num : Z) : 0 <= num -> np_linspace 1 0 num = Ok (ramp_down num).
Proof.
  intros Hn. unfold ramp_down.
  destruct (np_linspace_ok 1 0 num Hn) as [r [E _]]. rewrite E. reflexivity.
Qed.

Lemma len_ramp_up (num : Z) : 0 <= num -> len (ramp_up num) = num.
Proof.
  intros Hn. unfold ramp_up.
  destruct (np_linspace_ok 0 1 num Hn) as [r [E L]]. rewrite E. exact L.
Qed.

Lemma len_ramp_down (num : Z) : 0 <= num -> len (ramp_down num) = num.
Proof.
  intros Hn. unfold ramp_down.
  destruct (np_linspace_ok 1 0 num Hn) as [r [E L]]. rewrite E. exact L.
Qed.

(** ** The seam loops *)

Section SeamProperties.
Context {A : Type} `{Dtype A}.

(** One turn of the pipelines' loop: the window after seam [k] is faded in
    when it ends before the end of the buffer; nothing else changes. *)
Lemma fade_in_step_spec (period fade_length k : Z) (l : list A) :
  0 <= fade_length -> 0 <= k * period ->
  exists out,
    fade_in_step period fade_length l k = Ok out /\
    length out = length l /\
    forall (j : nat) (d : A), (j < length l)%nat ->
      nth j out d =
        if (k * period + fade_length <? len l)
           && (k * period <=? Z.of_nat j) && (Z.of_nat j <? k * period + fade_length)
        then mul (nth j l d)
                 (of_float (nth (j - Z.to_nat (k * period)) (ramp_up fade_length) 0%float))
        else nth j l d.
Proof.
  intros HF Hk. unfold fade_in_step.
  destruct (Z.ltb_spec (k * period + fade_length) (len l)) as [Hfit|Hno].
  - destruct (Z.ltb_spec (k * period) (len l)) as [_|Hc]; [|lia].
    simpl andb. rewrite ramp_up_linspace by assumption. simpl bind.
    destruct (np_islice_between mul l (k * period) (k * period + fade_length)
                (map of_float (ramp_up fade_length))) as [out [E [L N]]]; try lia.
    { unfold len. rewrite length_map. fold (len (ramp_up fade_length)).
      rewrite len_ramp_up by assumption. lia. }
    exists out. split; [exact E|]. split; [exact L|].
    intros j d Hj. rewrite (N j d (of_float 0%float) Hj).
    destruct ((k * period <=? Z.of_nat j) && (Z.of_nat j <? k * period + fade_length));
      [|reflexivity].
    f_equal. apply (map_nth of_float).
  - rewrite andb_false_r. simpl.
    exists l. split; [reflexivity|]. split; [reflexivity|]. reflexivity.
Qed.

(** The loop over a list of seam numbers. *)
Lemma fade_loop_spec (period fade_length : Z) (ks : list Z) :
  0 <= fade_length -> 0 <= period -> Forall (fun k => 0 <= k) ks ->
  forall l : list A,
  exists out,
    for_each (fade_in_step period fade_length) ks l = Ok out /\
    length out = length l /\
    (forall (j : nat) (d : A),
        (forall k, In k ks -> k * period + fade_length < len l ->
                   ~ (k * period <= Z.of_nat j < k * period + fade_length)) ->
        nth j out d = nth j l d) /\
    (fade_length <= period -> NoDup ks ->
     forall (k : Z) (j : nat) (d : A),
        In k ks -> k * period + fade_length < len l ->
        k * period <= Z.of_nat j < k * period + fade_length ->
        nth j out d =
          mul (nth j l d)
              (of_float (nth (j - Z.to_nat (k * period)) (ramp_up fade_length) 0%float))).
Proof.
  intros HF HP Hks. induction Hks as [|k0 r Hk0 Hr IH]; intros l.
  - exists l. simpl. repeat split; try reflexivity.
    intros _ _ k j d [].
  - destruct (fade_in_step_spec period fade_length k0 l HF ltac:(nia)) as [l1 [E1 [L1 N1]]].
    destruct (IH l1) as [out [E [L [Frame Effect]]]].
    assert (Hlen : len l1 = len l) by (unfold len; rewrite L1; reflexivity).
    exists out. simpl. rewrite E1. simpl. split; [exact E|].
    split; [congruence|]. split.
    + intros j d Hout.
      rewrite Frame.
      * destruct (Nat.lt_ge_cases j (length l)) as [Hj|Hj].
        -- rewrite (N1 j d Hj).
           destruct (Z.ltb_spec (k0 * period + fade_length) (len l)) as [Hfit|_];
             [|reflexivity].
           destruct (Z.leb_spec (k0 * period) (Z.of_nat j)) as [Ha|_]; [|reflexivity].
           destruct (Z.ltb_spec (Z.of_nat j) (k0 * period + fade_length)) as [Hb|_];
             [|reflexivity].
           exfalso. apply (Hout k0 (or_introl eq_refl) Hfit). lia.
        -- rewrite !nth_overflow by lia. reflexivity.
      * intros k Hin Hfit. apply Hout; [right; exact Hin|lia].
    + intros HFP Hnd k j d Hin Hfit Hwin.
      inversion Hnd as [|? ? Hnotin Hnd']; subst.
      assert (Hj : (j < length l)%nat) by (unfold len in Hfit; lia).
      destruct Hin as [->|Hin].
      * rewrite Frame.
        -- rewrite (N1 j d Hj).
           destruct (Z.ltb_spec (k * period + fade_length) (len l)) as [_|Hc]; [|lia].
           destruct (Z.leb_spec (k * period) (Z.of_nat j)) as [_|Hc]; [|lia].
           destruct (Z.ltb_spec (Z.of_nat j) (k * period + fade_length)) as [_|Hc]; [|lia].
           reflexivity.
        -- intros k' Hin' _ Hwin'.
           assert (k' <> k) by (intros ->; contradiction).
           nia.
      * rewrite (Effect HFP Hnd' k j d Hin ltac:(lia) Hwin).
        f_equal. rewrite (N1 j d Hj).
        destruct (Z.ltb_spec (k0 * period + fade_length) (len l)) as [_|_]; [|reflexivity].
        destruct (Z.leb_spec (k0 * period) (Z.of_nat j)) as [Ha|_]; [|reflexivity].
        destruct (Z.ltb_spec (Z.of_nat j) (k0 * period + fade_length)) as [Hb|_];
          [|reflexivity].
        exfalso. assert (k <> k0) by (intros ->; contradiction). nia.
Qed.
End SeamProperties.

Lemma in_py_range (lo hi k : Z) : In k (py_range lo hi) <-> lo <= k < hi.
Proof.
  unfold py_range. rewrite in_map_iff. split.
  - intros [i [E Hi]]. apply in_seq in Hi. lia.
  - intros Hk. exists (Z.to_nat (k - lo)). split; [lia|]. apply in_seq. lia.
Qed.

Lemma NoDup_py_range (lo hi : Z) : NoDup (py_range lo hi).
Proof.
  unfold py_range. apply Injective_map_NoDup.
  - intros x y E. lia.
  - apply seq_NoDup.
Qed.

Section LoopProperties.
Context {A : Type} `{Dtype A}.

(** The pipelines' loop: always completes and keeps the length; it leaves
    every sample outside the faded windows as it is, and when the windows
    do not overlap it multiplies each window by the rising ramp. *)
Lemma fade_seams_spec (period fade_length num_repeats : Z) (l : list A) :
  0 <= fade_length -> 0 <= period ->
  exists out,
    fade_seams period fade_length num_repeats l = Ok out /\
    length out = length l /\
    (forall (j : nat) (d : A),
        (forall k, 1 <= k < num_repeats -> k * period + fade_length < len l ->
                   ~ (k * period <= Z.of_nat j < k * period + fade_length)) ->
        nth j out d = nth j l d) /\
    (fade_length <= period ->
     forall (k : Z) (j : nat) (d : A),
        1 <= k < num_repeats -> k * period + fade_length < len l ->
        k * period <= Z.of_nat j < k * period + fade_length ->
        nth j out d =
          mul (nth j l d)
              (of_float (nth (j - Z.to_nat (k * period)) (ramp_up fade_length) 0%float))).
Proof.
  intros HF HP. unfold fade_seams.
  destruct (fade_loop_spec period fade_length (py_range 1 num_repeats) HF HP) with (l := l)
    as [out [E [L [Frame Effect]]]].
  { apply Forall_forall. intros k Hk. apply in_py_range in Hk. lia. }
  exists out. split; [exact E|]. split; [exact L|]. split.
  - intros j d Hout. apply Frame. intros k Hk. apply Hout. apply in_py_range. exact Hk.
  - intros HFP k j d Hk. apply (Effect HFP (NoDup_py_range _ _)).
    apply in_py_range. exact Hk.
Qed.

(** One turn of the loop of [extend_audio_method1_repeat]: only the samples
    less than [fade_length] away from the seam can change. *)
Lemma crossfade_step_spec (current_length fade_length k : Z) (l : list A) :
  0 <= fade_length -> 0 <= k * current_length ->
  exists out,
    crossfade_step current_length fade_length l k = Ok out /\
    length out = length l /\
    forall (j : nat) (d : A),
      ~ (k * current_length + fade_length < len l /\
         k * current_length - fade_length <= Z.of_nat j
           < k * current_length + fade_length) ->
      nth j out d = nth j l d.
Proof.
  intros HF Hk. unfold crossfade_step.
  set (s := k * current_length) in *.
  destruct (Z.ltb_spec (s + fade_length) (len l)) as [Hfit|Hno].
  - destruct (Z.ltb_spec s (len l)) as [_|Hc]; [|lia].
    simpl andb.
    rewrite ramp_down_linspace, ramp_up_linspace by assumption. simpl bind.
    assert (Hup : len (map (@of_float A _) (ramp_up fade_length)) = fade_length).
    { unfold len. rewrite length_map. apply len_ramp_up. assumption. }
    assert (Hdown : len (map (@of_float A _) (ramp_down fade_length)) = fade_length).
    { unfold len. rewrite length_map. apply len_ramp_down. assumption. }
    assert (Hfirst : exists l1,
       (if s - fade_length >=? 0
        then np_islice mul l (Some (s - fade_length)) (Some s)
               (map of_float (ramp_down fade_length))
        else Ok l) = Ok l1 /\ length l1 = length l /\
       forall (j : nat) (d : A),
         ~ (s - fade_length <= Z.of_nat j < s) -> nth j l1 d = nth j l d).
    { rewrite Z.geb_leb. destruct (Z.leb_spec 0 (s - fade_length)) as [Hpos|Hneg].
      - destruct (np_islice_between mul l (s - fade_length) s
                    (map of_float (ramp_down fade_length))) as [l1 [E [L N]]]; try lia.
        exists l1. split; [exact E|]. split; [exact L|].
        intros j d Hj. destruct (Nat.lt_ge_cases j (length l)) as [Hlt|Hge].
        + rewrite (N j d (of_float 0%float) Hlt).
          destruct (Z.leb_spec (s - fade_length) (Z.of_nat j)); [|reflexivity].
          destruct (Z.ltb_spec (Z.of_nat j) s); [lia|reflexivity].
        + rewrite !nth_overflow by lia. reflexivity.
      - exists l. repeat split; reflexivity. }
    destruct Hfirst as [l1 [E1 [L1 N1]]]. rewrite E1. simpl bind.
    destruct (np_islice_between mul l1 s (s + fade_length)
                (map of_float (ramp_up fade_length))) as [out [E [L N]]];
      try (unfold len in *; lia).
    exists out. split; [exact E|]. split; [congruence|].
    intros j d Hj. destruct (Nat.lt_ge_cases j (length l)) as [Hlt|Hge].
    + rewrite (N j d (of_float 0%float)) by lia.
      destruct (Z.leb_spec s (Z.of_nat j)); simpl.
      * destruct (Z.ltb_spec (Z.of_nat j) (s + fade_length)); [lia|].
        apply N1. lia.
      * apply N1. lia.
    + rewrite !nth_overflow by lia. reflexivity.
  - rewrite andb_false_r.
    exists l. repeat split; reflexivity.
Qed.

Lemma crossfade_loop_spec (current_length fade_length : Z) (ks : list Z) :
  0 <= fade_length -> 0 <= current_length -> Forall (fun k => 0 <= k) ks ->
  forall l : list A,
  exists out,
    for_each (crossfade_step current_length fade_length) ks l = Ok out /\
    length out = length l /\
    forall (j : nat) (d : A),
      (forall k, In k ks ->
         ~ (k * current_length + fade_length < len l /\
            k * current_length - fade_length <= Z.of_nat j
              < k * current_length + fade_length)) ->
      nth j out d = nth j l d.
Proof.
  intros HF HP Hks. induction Hks as [|k0 r Hk0 Hr IH]; intros l.
  - exists l. repeat split; reflexivity.
  - destruct (crossfade_step_spec current_length fade_length k0 l HF ltac:(nia))
      as [l1 [E1 [L1 N1]]].
    destruct (IH l1) as [out [E [L Frame]]].
    assert (Hlen : len l1 = len l) by (unfold len; rewrite L1; reflexivity).
    exists out. simpl. rewrite E1. simpl. split; [exact E|].
    split; [congruence|].
    intros j d Hout. rewrite Frame.
    + apply N1. apply Hout. left. reflexivity.
    + intros k Hin. rewrite Hlen. apply Hout. right. exact Hin.
Qed.






(** The single-tap echo: the length is kept, the first [d] samples are
    copied and every later one gets the decayed sample [d] places before. *)
Lemma simple_reverb_spec (audio : list A) (sr : Z) (room_size : float) (d : Z) :
  py_int (py_float sr * 0.05 * room_size)%float = Ok d -> 0 <= d ->
  exists out,
    simple_reverb audio sr room_size = Ok out /\
    length out = length audio /\
    forall (i : nat) (x : A), (i < length audio)%nat ->
      nth i out x =
        if Z.of_nat i <? d then nth i audio x
        else add (nth i audio x)
                 (mul (nth (i - Z.to_nat d) audio x) (of_float (0.3 * room_size)%float)).
Proof.
  intros Hd Hpos. unfold simple_reverb. rewrite Hd. simpl bind.
  pose proof (len_nonneg audio) as Hn.
  unfold np_zeros. destruct (Z.ltb_spec (len audio + d) 0) as [Hc|_]; [lia|].
  simpl bind.
  set (z := repeat zero (Z.to_nat (len audio + d))).
  assert (Hz : len z = len audio + d) by (apply len_repeat; lia).
  destruct (np_islice_spec (fun (_ x : A) => x) z None (Some (len audio)) audio)
    as [r1 [E1 [L1 N1]]]; simpl; rewrite ?clip_index_id; try lia.
  rewrite E1. simpl bind.
  assert (Hr1 : len r1 = len audio + d) by (unfold len in *; lia).
  destruct (np_islice_spec add r1 (Some d) None
              (np_scale audio (of_float (0.3 * room_size)%float)))
    as [r2 [E2 [L2 N2]]]; simpl; rewrite ?clip_index_id; try lia.
  { unfold np_scale, len. rewrite length_map. unfold len in Hr1. lia. }
  rewrite E2. simpl bind.
  exists (py_slice r2 None (Some (len audio))). split; [reflexivity|].
  rewrite py_slice_to by assumption. split.
  - rewrite length_firstn. unfold len in *. lia.
  - intros i x Hi. rewrite nth_firstn.
    destruct (Nat.ltb_spec i (Z.to_nat (len audio))) as [_|Hc]; [|unfold len in Hc; lia].
    rewrite (N2 i x x) by (unfold len in *; lia).
    simpl slice_lo. simpl slice_hi. rewrite clip_index_id by lia.
    rewrite (N1 i x x) by (unfold len in *; lia).
    simpl slice_lo. simpl slice_hi. rewrite clip_index_id by lia.
    replace (0 <=? Z.of_nat i) with true by (symmetry; apply Z.leb_le; lia).
    replace (Z.of_nat i <? len audio) with true
      by (symmetry; apply Z.ltb_lt; unfold len; lia).
    simpl andb. rewrite Nat.sub_0_r.
    destruct (Z.leb_spec d (Z.of_nat i)) as [Hge|Hlt].
    + replace (Z.of_nat i <? len r1) with true
        by (symmetry; apply Z.ltb_lt; unfold len in *; lia).
      destruct (Z.ltb_spec (Z.of_nat i) d) as [Hc|_]; [lia|]. simpl.
      f_equal. unfold np_scale.
      rewrite (nth_indep _ x (mul x (of_float (0.3 * room_size)%float)))
        by (rewrite length_map; lia).
      apply (map_nth (fun a => mul a (of_float (0.3 * room_size)%float))).
    + destruct (Z.ltb_spec (Z.of_nat i) d) as [_|Hc]; [|lia]. reflexivity.
Qed.
End LoopProperties.

(** ** The length-matching strategies of [AudioAugmentor] *)

Section Strategies.
Context {A G : Type} `{Dtype A} `{Extern A G}.

(** The guard at the top of [extend_to_target_length]. *)
Lemma extend_long_input (self : AudioAugmentor) (audio : list A) (method : string) :
  target_length self <= len audio ->
  extend_to_target_length self audio method
    = Ok (py_slice audio None (Some (target_length self))).
Proof.
  intros Hlong. unfold extend_to_target_length.
  rewrite Z.geb_leb. destruct (Z.leb_spec (target_length self) (len audio)); [reflexivity|lia].
Qed.

Lemma extend_short_input (self : AudioAugmentor) (audio : list A) (method : string) :
  len audio < target_length self ->
  (len audio >=? target_length self) = false.
Proof.
  intros Hshort. rewrite Z.geb_leb. apply Z.leb_gt. exact Hshort.
Qed.

Lemma extend_repeat_length (self : AudioAugmentor) (audio : list A) :
  0 <= target_length self -> audio <> [] ->
  exists out,
    extend_to_target_length self audio "repeat" = Ok out /\
    len out = target_length self.
Proof.
  intros Htl Hne.
  destruct (Z.le_gt_cases (target_length self) (len audio)) as [Hlong|Hshort].
  - rewrite extend_long_input by assumption.
    eexists. split; [reflexivity|]. apply len_py_slice_to; assumption.
  - unfold extend_to_target_length.
    rewrite (extend_short_input self audio "repeat") by lia. simpl String.eqb. cbv iota.
    assert (Hpos : 0 < len audio) by (apply len_pos; assumption).
    destruct (np_ceil_div_spec (target_length self) (len audio) Hpos) as [c [Ec [Hc1 Hc2]]].
    rewrite Ec. simpl bind.
    assert (Hc : 0 <= c) by nia.
    rewrite np_tile_ok by assumption. simpl bind.
    eexists. split; [reflexivity|].
    apply len_py_slice_to; [assumption|].
    rewrite len_concat_repeat by assumption. exact Hc1.
Qed.

Lemma extend_pad_silence_short (self : AudioAugmentor) (audio : list A) :
  len audio < target_length self ->
  extend_to_target_length self audio "pad_silence"
    = Ok (repeat zero (Z.to_nat ((target_length self - len audio) / 2))
            ++ audio
            ++ repeat zero (Z.to_nat (target_length self - len audio
                                      - (target_length self - len audio) / 2))).
Proof.
  intros Hshort. unfold extend_to_target_length.
  rewrite (extend_short_input self audio "pad_silence") by lia. simpl String.eqb. cbv iota.
  set (needed := target_length self - len audio).
  assert (Hb : 0 <= needed / 2 <= needed) by (apply half_bounds; unfold needed; lia).
  unfold np_zeros.
  destruct (Z.ltb_spec (needed / 2) 0) as [Hc|_]; [lia|].
  destruct (Z.ltb_spec (needed - needed / 2) 0) as [Hc|_]; [lia|].
  reflexivity.
Qed.

Lemma extend_pad_silence_length (self : AudioAugmentor) (audio : list A) :
  0 <= target_length self ->
  exists out,
    extend_to_target_length self audio "pad_silence" = Ok out /\
    len out = target_length self.
Proof.
  intros Htl.
  destruct (Z.le_gt_cases (target_length self) (len audio)) as [Hlong|Hshort].
  - rewrite extend_long_input by assumption.
    eexists. split; [reflexivity|]. apply len_py_slice_to; assumption.
  - rewrite extend_pad_silence_short by lia.
    eexists. split; [reflexivity|].
    set (needed := target_length self - len audio).
    assert (Hb : 0 <= needed / 2 <= needed) by (apply half_bounds; unfold needed; lia).
    rewrite !len_app, !len_repeat by lia. lia.
Qed.

Lemma extend_stretch_length (self : AudioAugmentor) (audio : list A) :
  0 <= target_length self ->
  (len audio < target_length self ->
   exists stretched,
     librosa_time_stretch audio
       (PrimFloat.div (py_float (len audio)) (py_float (target_length self)))
       = Ok stretched /\
     target_length self <= len stretched) ->
  exists out,
    extend_to_target_length self audio "stretch" = Ok out /\
    len out = target_length self.
Proof.
  intros Htl Hext.
  destruct (Z.le_gt_cases (target_length self) (len audio)) as [Hlong|Hshort].
  - rewrite extend_long_input by assumption.
    eexists. split; [reflexivity|]. apply len_py_slice_to; assumption.
  - destruct (Hext ltac:(lia)) as [stretched [Es Hs]].
    unfold extend_to_target_length.
    rewrite (extend_short_input self audio "stretch") by lia. simpl String.eqb. cbv iota.
    unfold py_truediv.
    pose proof (len_nonneg audio).
    destruct (Z.eqb_spec (target_length self) 0) as [E|_]; [lia|].
    simpl bind. unfold time_stretch. rewrite Es. simpl bind.
    eexists. split; [reflexivity|]. apply len_py_slice_to; assumption.
Qed.

Lemma extend_stretch_and_repeat_length (self : AudioAugmentor) (audio : list A) :
  0 <= target_length self ->
  (len audio < target_length self ->
   exists stretched,
     librosa_time_stretch audio 0.7%float = Ok stretched /\ stretched <> []) ->
  exists out,
    extend_to_target_length self audio "stretch_and_repeat" = Ok out /\
    len out = target_length self.
Proof.
  intros Htl Hext.
  destruct (Z.le_gt_cases (target_length self) (len audio)) as [Hlong|Hshort].
  - rewrite extend_long_input by assumption.
    eexists. split; [reflexivity|]. apply len_py_slice_to; assumption.
  - destruct (Hext ltac:(lia)) as [stretched [Es Hs]].
    unfold extend_to_target_length.
    rewrite (extend_short_input self audio "stretch_and_repeat") by lia.
    simpl String.eqb. cbv iota.
    unfold time_stretch. rewrite Es. simpl bind.
    destruct (Z.ltb_spec (len stretched) (target_length self)) as [Hlt|Hge].
    + assert (Hpos : 0 < len stretched) by (apply len_pos; assumption).
      destruct (np_ceil_div_spec (target_length self) (len stretched) Hpos)
        as [c [Ec [Hc1 Hc2]]].
      rewrite Ec. simpl bind.
      assert (Hc : 0 <= c) by nia.
      rewrite np_tile_ok by assumption. simpl bind.
      eexists. split; [reflexivity|].
      apply len_py_slice_to; [assumption|].
      rewrite len_concat_repeat by assumption. exact Hc1.
    + eexists. split; [reflexivity|]. apply len_py_slice_to; assumption.
Qed.

(** [np.random.normal] returns as many draws as it is asked for. *)
Lemma length_draws (loc scale : float) (n : nat) (g : G) :
  length (fst (draws (A := A) loc scale n g)) = n.
Proof.
  revert g. induction n as [|n IH]; intros g; simpl.
  - reflexivity.
  - destruct (draw_normal loc scale g) as [x g1].
    specialize (IH g1). destruct (draws loc scale n g1) as [r g2].
    simpl in *. rewrite IH. reflexivity.
Qed.

Lemma add_white_noise_length (audio : list A) (noise_level : float) (g : G) :
  (noise_level <? 0)%float = false ->
  exists out g',
    extend_audio.add_white_noise audio noise_level g = Ok (out, g') /\
    length out = length audio.
Proof.
  intros Hnl. unfold extend_audio.add_white_noise, bindR, np_random_normal.
  pose proof (len_nonneg audio).
  destruct (Z.ltb_spec (len audio) 0) as [Hc|_]; [lia|].
  rewrite Hnl.
  pose proof (length_draws 0 noise_level (Z.to_nat (len audio)) g) as Hd.
  destruct (draws 0 noise_level (Z.to_nat (len audio)) g) as [noise g'].
  simpl in *. eexists. eexists. split; [reflexivity|].
  unfold np_add. rewrite length_map2, length_map, Hd. unfold len. lia.
Qed.
End Strategies.

(** ** The comprehensive pipeline of the script *)

Section Pipeline.
Context {A G : Type} `{Dtype A} `{Extern A G}.

Lemma method3_length (audio : list A) (sr : Z) (td noise_level : float) (g : G)
    (tl : Z) (rate : float) (g1 : G) (stretched : list A) (F d : Z) :
  py_int (td * py_float sr)%float = Ok tl -> 0 <= tl ->
  draw_uniform (A := A) 0.75 0.85 g = (rate, g1) ->
  librosa_time_stretch audio rate = Ok stretched -> stretched <> [] ->
  py_int (0.05 * py_float sr)%float = Ok F -> 0 <= F ->
  (noise_level <? 0)%float = false ->
  py_int (py_float sr * 0.05 * 0.3)%float = Ok d -> 0 <= d ->
  exists out g',
    extend_audio_method3_comprehensive audio sr td noise_level g = Ok (out, g') /\
    len out = tl.
Proof.
  intros Htl Hpos Hu Hs Hne HF HF0 Hnl Hd Hd0.
  unfold extend_audio_method3_comprehensive, bindR, lift, np_random_uniform, ret.
  rewrite Htl. next. rewrite Hu, Hs. next.
  assert (Hlen : 0 < len stretched) by (apply len_pos; assumption).
  destruct (np_ceil_div_spec tl (len stretched) Hlen) as [c [Ec [Hc1 Hc2]]].
  rewrite Ec. next. assert (Hc : 0 <= c) by nia.
  rewrite np_tile_ok by assumption. next. rewrite HF.
  next.
  set (repeated := py_slice _ None (Some tl)).
  assert (Hrep : len repeated = tl).
  { apply len_py_slice_to; [assumption|].
    rewrite len_concat_repeat by assumption. exact Hc1. }
  destruct (fade_seams_spec (len stretched) F c repeated HF0 ltac:(lia))
    as [faded [Ef [Lf _]]].
  rewrite Ef. next.
  destruct (add_white_noise_length faded noise_level g1 Hnl) as [noisy [g2 [En Ln]]].
  rewrite En. next.
  destruct (simple_reverb_spec noisy sr 0.3 d Hd Hd0) as [rev [Er [Lr _]]].
  rewrite Er. next.
  eexists. eexists. split; [reflexivity|].
  apply len_py_slice_to; [assumption|].
  unfold len in *. lia.
Qed.
End Pipeline.

(** ** C1: the length of the results *)

Section LengthInvariant.
Context {A G : Type} `{Dtype A} `{Extern A G}.

(** C1 (as the code has it).  The target length is
    [int(target_duration * sample_rate)], the product truncated toward zero.
    For a positive duration, a positive sample rate and a non-empty input,
    [repeat] and [pad_silence] return exactly that many samples; so does
    [stretch] when the stretcher returns at least that many, and so do
    [stretch_and_repeat] and the comprehensive pipeline when the stretcher
    returns a non-empty signal. *)
Theorem strategies_reach_target_length
    (td : float) (sr : Z) (self : AudioAugmentor) (audio : list A) :
  init td sr = Ok self -> (0 <? td)%float = true -> 0 < sr < 2 ^ 63 ->
  audio <> [] ->
  py_int (td * py_float sr)%float = Ok (target_length self) /\
  (exists out, extend_to_target_length self audio "repeat" = Ok out /\
               len out = target_length self) /\
  (exists out, extend_to_target_length self audio "pad_silence" = Ok out /\
               len out = target_length self) /\
  ((len audio < target_length self ->
    exists stretched,
      librosa_time_stretch audio
        (PrimFloat.div (py_float (len audio)) (py_float (target_length self)))
        = Ok stretched /\
      target_length self <= len stretched) ->
   exists out, extend_to_target_length self audio "stretch" = Ok out /\
               len out = target_length self) /\
  ((len audio < target_length self ->
    exists stretched,
      librosa_time_stretch audio 0.7%float = Ok stretched /\ stretched <> []) ->
   exists out, extend_to_target_length self audio "stretch_and_repeat" = Ok out /\
               len out = target_length self) /\
  (forall (noise_level : float) (g g1 : G) (rate : float) (stretched : list A)
          (fade_length delay : Z),
      draw_uniform (A := A) 0.75 0.85 g = (rate, g1) ->
      librosa_time_stretch audio rate = Ok stretched -> stretched <> [] ->
      py_int (0.05 * py_float sr)%float = Ok fade_length ->
      (noise_level <? 0)%float = false ->
      py_int (py_float sr * 0.05 * 0.3)%float = Ok delay ->
      exists out g',
        extend_audio_method3_comprehensive audio sr td noise_level g = Ok (out, g') /\
        len out = target_length self).
Proof.
  intros Hinit Htd Hsr Hne.
  assert (Hint : py_int (td * py_float sr)%float = Ok (target_length self)).
  { unfold init in Hinit.
    destruct (py_int (td * py_float sr)%float) as [e|tl]; simpl in Hinit.
    - discriminate Hinit.
    - inversion Hinit. reflexivity. }
  assert (Htl : 0 <= target_length self).
  { apply (target_length_nonneg td sr); [exact Htd|lia|exact Hint]. }
  split; [exact Hint|].
  split; [apply extend_repeat_length; assumption|].
  split; [apply extend_pad_silence_length; assumption|].
  split; [apply extend_stretch_length; assumption|].
  split; [apply extend_stretch_and_repeat_length; assumption|].
  intros noise_level g g1 rate stretched F d Hu Hs Hs0 HF Hnl Hd.
  assert (HF0 : 0 <= F) by (apply (fade_length_nonneg sr); [lia|exact HF]).
  assert (Hd0 : 0 <= d) by (apply (delay_nonneg sr 0.3); [lia|reflexivity|exact Hd]).
  eapply method3_length; eassumption.
Qed.
End LengthInvariant.

(** A run of C1 at 7 samples per second for one second, on three samples. *)
Lemma strategies_reach_target_length_witness :
  (exists out,
     extend_to_target_length
       {| target_duration := 1; sample_rate := 7; target_length := 7 |}
       [1; 2; 3]%float "repeat" = Ok out /\ len out = 7) /\
  (exists out,
     extend_to_target_length
       {| target_duration := 1; sample_rate := 7; target_length := 7 |}
       [1; 2; 3]%float "stretch" = Ok out /\ len out = 7) /\
  (exists out g',
     extend_audio_method3_comprehensive [1; 2; 3]%float 7 1 0.005 0%nat = Ok (out, g') /\
     len out = 7).
Proof.
  pose proof (strategies_reach_target_length (A := float) (G := nat) 1 7
                {| target_duration := 1; sample_rate := 7; target_length := 7 |}
                [1; 2; 3]%float) as T.
  destruct T as [_ [Hrepeat [_ [Hstretch [_ Hpipe]]]]].
  - reflexivity.
  - reflexivity.
  - lia.
  - intros E. discriminate E.
  - split; [exact Hrepeat|]. split.
    + apply Hstretch. intros _. eexists. split.
      * vm_compute. reflexivity.
      * vm_compute. intros E. discriminate E.
    + apply (Hpipe 0.005%float 0%nat 1%nat
               (0.75 + (0.85 - 0.75) * 0.5)%float [1; 1; 2; 3]%float 0 0).
      * reflexivity.
      * vm_compute. reflexivity.
      * intros E. discriminate E.
      * vm_compute. reflexivity.
      * reflexivity.
      * vm_compute. reflexivity.
Defined.

(** C1 as the specification words it, with [round]: at 22050 Hz and 0.1234 s
    the product is 2720.97, the strategies return 2720 samples, the rounded
    value is 2721. *)
Lemma target_length_is_truncated_not_rounded :
  ~ (forall (td : float) (sr : Z) (audio : list float),
        (0 <? td)%float = true -> 0 < sr -> audio <> [] ->
        exists (self : AudioAugmentor) out,
          init td sr = Ok self /\
          extend_to_target_length self audio "repeat" = Ok out /\
          round_nearest (td * py_float sr)%float = Ok (len out)).
Proof.
  intros Hclaim.
  destruct (Hclaim 0.1234%float 22050 [1%float]) as [self [out [Hinit [Hrun Hround]]]].
  - reflexivity.
  - lia.
  - intros E. discriminate E.
  - vm_compute in Hinit. inversion Hinit as [Hself]. subst self. clear Hinit.
    destruct (extend_repeat_length (A := float) (G := nat)
                {| target_duration := 0.1234; sample_rate := 22050; target_length := 2720 |}
                [1%float]) as [out' [Hrun' Hlen]].
    + simpl. lia.
    + intros E. discriminate E.
    + rewrite Hrun in Hrun'. inversion Hrun'. subst out'.
      simpl in Hlen. rewrite Hlen in Hround.
      vm_compute in Hround. discriminate Hround.
Qed.

(** ** The pipeline of the class

    Whatever [augment_audio] returns has [target_length] samples: the result
    of the chosen method is cut or padded with zeros before the final
    normalization. *)

Section ClassPipeline.
Context {A G : Type} `{Dtype A} `{Extern A G}.

Lemma augment_audio_length (self : AudioAugmentor) (audio : list A) (method : string)
    (noise_level : float) (g g' : G) (out : list A) :
  0 <= target_length self ->
  augment_audio self audio method noise_level g = Ok (out, g') ->
  len out = target_length self.
Proof.
  intros Htl. unfold augment_audio, bindR.
  match goal with
  | |- match ?first g with _ => _ end = _ -> _ => destruct (first g) as [e|[ext g1]]
  end; [discriminate|].
  cbv zeta.
  match goal with
  | |- match lift (np_max (np_abs ?fixed)) _ with _ => _ end = _ -> _ =>
      set (cut := fixed)
  end.
  assert (Hcut : len cut = target_length self).
  { unfold cut. rewrite Z.gtb_ltb.
    destruct (Z.ltb_spec (target_length self) (len ext)) as [Hlong|Hnot].
    - apply len_py_slice_to; lia.
    - destruct (Z.ltb_spec (len ext) (target_length self)) as [Hshort|Hnot'].
      + unfold np_pad_right. rewrite len_app, len_repeat by lia. lia.
      + lia. }
  unfold lift. destruct (np_max (np_abs cut)) as [e|m]; [discriminate|].
  unfold ret, Ok. intros E. inversion E.
  unfold np_scale, np_divide, len in *. rewrite !length_map. exact Hcut.
Qed.
End ClassPipeline.

(** ** C10: the length check comes before the method is looked at *)

Section MethodCheck.
Context {A G : Type} `{Dtype A} `{Extern A G}.

Lemma unknown_method_branch (self : AudioAugmentor) (audio : list A) (method : string) :
  known_method method = false -> len audio < target_length self ->
  extend_to_target_length self audio method
    = Raise (ValueError ("Unknown method: " ++ method)).
Proof.
  intros Hm Hshort. unfold known_method in Hm.
  apply orb_false_elim in Hm. destruct Hm as [Hm H4].
  apply orb_false_elim in Hm. destruct Hm as [Hm H3].
  apply orb_false_elim in Hm. destruct Hm as [H1 H2].
  unfold extend_to_target_length.
  rewrite (extend_short_input self audio method Hshort), H1, H2, H3, H4.
  reflexivity.
Qed.

Lemma extend_fails_only_when_short (self : AudioAugmentor) (audio : list A)
    (method : string) (e : exn) :
  extend_to_target_length self audio method = Raise e ->
  len audio < target_length self.
Proof.
  intros Hfail.
  destruct (Z.le_gt_cases (target_length self) (len audio)) as [Hlong|Hshort]; [|lia].
  rewrite extend_long_input in Hfail by assumption. discriminate Hfail.
Qed.

(** C10.  The length check comes first: for every method string, one of
    the four names or not, an input of at least [target_length] samples is
    answered by its prefix [audio[:target_length]] and no call on such an
    input raises; with a method that is not one of the four names the call
    raises [ValueError] when the input is shorter than [target_length],
    and only then. *)
Theorem length_check_precedes_method (self : AudioAugmentor) (audio : list A)
    (method : string) :
  (target_length self <= len audio ->
   extend_to_target_length self audio method
     = Ok (py_slice audio None (Some (target_length self)))) /\
  (0 <= target_length self <= len audio ->
   extend_to_target_length self audio method
     = Ok (firstn (Z.to_nat (target_length self)) audio)) /\
  (forall e, extend_to_target_length self audio method = Raise e ->
             len audio < target_length self) /\
  (known_method method = false ->
   (len audio < target_length self <->
    extend_to_target_length self audio method
      = Raise (ValueError ("Unknown method: " ++ method)))).
Proof.
  split; [|split; [|split]].
  - apply extend_long_input.
  - intros [Hpos Hlong]. rewrite extend_long_input by assumption.
    rewrite py_slice_to by assumption. reflexivity.
  - apply extend_fails_only_when_short.
  - intros Hm. split.
    + apply unknown_method_branch. exact Hm.
    + apply extend_fails_only_when_short.
Qed.
End MethodCheck.

(** C10 run with a target of two samples: three samples are cut to two
    under the method string "foo" and under the name "repeat" alike, and one
    sample with "foo" raises. *)
Lemma length_check_precedes_method_witness :
  extend_to_target_length (G := nat)
    {| target_duration := 1; sample_rate := 2; target_length := 2 |}
    [1; 2; 3]%float "foo" = Ok [1; 2]%float /\
  extend_to_target_length (G := nat)
    {| target_duration := 1; sample_rate := 2; target_length := 2 |}
    [1; 2; 3]%float "repeat" = Ok [1; 2]%float /\
  extend_to_target_length (G := nat)
    {| target_duration := 1; sample_rate := 2; target_length := 2 |}
    [1%float] "foo" = Raise (ValueError "Unknown method: foo").
Proof.
  split; [|split].
  - destruct (length_check_precedes_method (A := float) (G := nat)
                {| target_duration := 1; sample_rate := 2; target_length := 2 |}
                [1; 2; 3]%float "foo") as [_ [Hprefix _]].
    apply Hprefix. vm_compute. split; discriminate.
  - destruct (length_check_precedes_method (A := float) (G := nat)
                {| target_duration := 1; sample_rate := 2; target_length := 2 |}
                [1; 2; 3]%float "repeat") as [_ [Hprefix _]].
    apply Hprefix. vm_compute. split; discriminate.
  - destruct (length_check_precedes_method (A := float) (G := nat)
                {| target_duration := 1; sample_rate := 2; target_length := 2 |}
                [1%float] "foo") as [_ [_ [_ Hraise]]].
    apply Hraise; reflexivity.
Defined.

(** ** C8: inputs that are already long enough *)

Section LongInputs.
Context {A G : Type} `{Dtype A} `{Extern A G}.

(** In the class every strategy cuts a long input to its first
    [target_length] samples, [pad_silence] included. *)
Lemma strategies_truncate_long_input (self : AudioAugmentor) (audio : list A)
    (method : string) :
  0 <= target_length self <= len audio ->
  extend_to_target_length self audio method
    = Ok (firstn (Z.to_nat (target_length self)) audio).
Proof.
  intros [Hpos Hlong]. rewrite extend_long_input by assumption.
  rewrite py_slice_to by assumption. reflexivity.
Qed.

(** C8 on [extend_audio_method4_silence_padding]: an input longer than the
    target makes [silence_before] negative, and [np.random.normal] refuses a
    negative size; no truncated signal is returned. *)
Theorem silence_padding_rejects_long_input (audio : list A) (sr : Z) (td : float)
    (tl : Z) (g : G) :
  py_int (td * py_float sr)%float = Ok tl -> tl < len audio ->
  extend_audio_method4_silence_padding audio sr td g
    = Raise (ValueError "negative dimensions are not allowed").
Proof.
  intros Htl Hlong.
  unfold extend_audio_method4_silence_padding, bindR, lift.
  rewrite Htl. next.
  unfold np_random_normal.
  assert (Hneg : (tl - len audio) / 2 < 0).
  { apply Z.div_lt_upper_bound; lia. }
  destruct (Z.ltb_spec ((tl - len audio) / 2) 0) as [_|Hc]; [reflexivity|lia].
Qed.
End LongInputs.

(** Three samples, a target of two. *)
Lemma silence_padding_rejects_long_input_witness :
  extend_audio_method4_silence_padding [0.1; 0.2; 0.3]%float 1 2 0%nat
    = Raise (ValueError "negative dimensions are not allowed").
Proof.
  apply (silence_padding_rejects_long_input (A := float) (G := nat)
           [0.1; 0.2; 0.3]%float 1 2 2 0%nat).
  - vm_compute. reflexivity.
  - reflexivity.
Defined.

(** ** C6: what is validated *)

Section Validation.
Context {A G : Type} `{Dtype A} `{Extern A G}.

Lemma augment_unknown_method (self : AudioAugmentor) (audio : list A)
    (method : string) (noise_level : float) (g : G) :
  known_pipeline_method method = false ->
  augment_audio self audio method noise_level g
    = Raise (ValueError ("Unknown method: " ++ method)).
Proof.
  intros Hm. unfold known_pipeline_method in Hm.
  apply orb_false_elim in Hm. destruct Hm as [Hm H3].
  apply orb_false_elim in Hm. destruct Hm as [H1 H2].
  unfold augment_audio, bindR. rewrite H1, H2, H3. reflexivity.
Qed.

(** C6 (as the code has it).  The method name is checked:
    [augment_audio] raises [ValueError] for every name it does not know,
    [extend_to_target_length] for every name it does not know once the
    input is shorter than the target.  A stretch rate that is not positive
    fails as well, by the check of the external stretcher, which the code
    reaches without a test of its own: [time_stretch] raises the stretcher's
    [ParameterError], and so do the strategy and the pipeline [stretch] when
    the rate [len(audio) / target_length] they compute is not positive.
    Duration and sample rate are not checked: the constructor accepts every
    pair whose product [int] can convert, and with a target length that is
    not positive every call of [extend_to_target_length] returns the slice
    [audio[:target_length]]. *)
Theorem only_the_method_name_is_checked (self : AudioAugmentor) (audio : list A)
    (method : string) :
  (forall noise_level g,
      known_pipeline_method method = false ->
      augment_audio self audio method noise_level g
        = Raise (ValueError ("Unknown method: " ++ method))) /\
  (known_method method = false -> len audio < target_length self ->
   extend_to_target_length self audio method
     = Raise (ValueError ("Unknown method: " ++ method))) /\
  (stretcher_checks_rate A G ->
   (forall rate,
       (rate <=? 0)%float = true ->
       time_stretch self audio rate
         = Raise (ParameterError "rate must be a positive number")) /\
   (forall rate,
       len audio < target_length self ->
       py_truediv (len audio) (target_length self) = Ok rate ->
       (rate <=? 0)%float = true ->
       extend_to_target_length self audio "stretch"
         = Raise (ParameterError "rate must be a positive number") /\
       forall noise_level g,
         augment_audio self audio "stretch" noise_level g
           = Raise (ParameterError "rate must be a positive number"))) /\
  (forall td sr tl,
      py_int (td * py_float sr)%float = Ok tl ->
      init td sr = Ok {| target_duration := td; sample_rate := sr; target_length := tl |}) /\
  (target_length self <= 0 ->
   extend_to_target_length self audio method
     = Ok (py_slice audio None (Some (target_length self)))).
Proof.
  split; [|split; [|split; [|split]]].
  - intros noise_level g. apply augment_unknown_method.
  - apply unknown_method_branch.
  - intros Hcheck. split.
    + intros rate Hrate. unfold time_stretch. apply Hcheck. exact Hrate.
    + intros rate Hshort Hdiv Hrate.
      assert (Hext : extend_to_target_length self audio "stretch"
                     = Raise (ParameterError "rate must be a positive number")).
      { unfold extend_to_target_length.
        rewrite (extend_short_input self audio "stretch" Hshort).
        change (String.eqb "stretch" "stretch") with true. cbv beta iota.
        rewrite Hdiv. simpl bind. unfold time_stretch.
        rewrite (Hcheck audio rate Hrate). reflexivity. }
      split; [exact Hext|].
      intros noise_level g. unfold augment_audio, bindR, lift.
      change (String.eqb "stretch" "simple") with false.
      change (String.eqb "stretch" "stretch") with true. cbv beta iota.
      rewrite Hext. reflexivity.
  - intros td sr tl Htl. unfold init. rewrite Htl. reflexivity.
  - intros Hneg. apply extend_long_input. pose proof (len_nonneg audio). lia.
Qed.
End Validation.

(** The stand-in stretcher has the check of the real one. *)
Lemma stand_in_checks_rate : stretcher_checks_rate float nat.
Proof.
  intros audio rate Hrate. simpl. unfold nearest_stretch. rewrite Hrate. reflexivity.
Qed.

(** C6 run: an unknown name raises in both entry points, a rate of minus
    one and the rate [0 / 5] of an empty input are refused by the stretcher,
    and a duration of minus one second is accepted. *)
Lemma only_the_method_name_is_checked_witness :
  augment_audio
    {| target_duration := 1; sample_rate := 2; target_length := 2 |}
    [1%float] "foo" 0.005 0%nat = Raise (ValueError "Unknown method: foo") /\
  extend_to_target_length (G := nat)
    {| target_duration := 1; sample_rate := 2; target_length := 2 |}
    [1%float] "foo" = Raise (ValueError "Unknown method: foo") /\
  time_stretch
    {| target_duration := 1; sample_rate := 2; target_length := 2 |}
    [1%float] (-1) = Raise (ParameterError "rate must be a positive number") /\
  extend_to_target_length (A := float) (G := nat)
    {| target_duration := 1; sample_rate := 5; target_length := 5 |}
    [] "stretch" = Raise (ParameterError "rate must be a positive number") /\
  init (-1) 22050
    = Ok {| target_duration := (-1); sample_rate := 22050; target_length := -22050 |}.
Proof.
  pose proof (only_the_method_name_is_checked (A := float) (G := nat)
                {| target_duration := 1; sample_rate := 2; target_length := 2 |}
                [1%float] "foo") as [Haug [Hext [Hrate [Hinit _]]]].
  pose proof (only_the_method_name_is_checked (A := float) (G := nat)
                {| target_duration := 1; sample_rate := 5; target_length := 5 |}
                [] "stretch") as [_ [_ [Hempty _]]].
  split; [|split; [|split; [|split]]].
  - apply Haug. reflexivity.
  - apply Hext; reflexivity.
  - apply (Hrate stand_in_checks_rate). reflexivity.
  - destruct (Hempty stand_in_checks_rate) as [_ Hstretch].
    apply (Hstretch 0%float); reflexivity.
  - apply Hinit. vm_compute. reflexivity.
Defined.

(** C6 as the specification words it fails for the duration and for the
    sample rate: a duration of minus one second, or a sample rate of zero,
    builds the object with a target length of -22050, or 0, and the strategy
    returns the empty slice; the pipeline with a duration of minus one second
    at 5 Hz returns ten of twenty samples. *)
Lemma nonpositive_duration_is_accepted :
  ~ (forall (td : float) (sr : Z) (audio : list float) (method : string),
        (td <=? 0)%float = true ->
        exists e,
          (self <- init td sr ;;
           extend_to_target_length (G := nat) self audio method) = Raise e) /\
  ~ (forall (td : float) (sr : Z) (audio : list float) (method : string),
        sr <= 0 ->
        exists e,
          (self <- init td sr ;;
           extend_to_target_length (G := nat) self audio method) = Raise e) /\
  ~ (forall (td : float) (sr : Z) (audio : list float) (method : string)
            (noise_level : float) (g : nat),
        (td <=? 0)%float = true ->
        exists e,
          match init td sr with
          | inl e' => Raise e'
          | inr self => augment_audio self audio method noise_level g
          end = Raise e).
Proof.
  split; [|split]; intros Hclaim.
  - destruct (Hclaim (-1)%float 22050 [1%float] "repeat"%string) as [e He].
    + reflexivity.
    + vm_compute in He. discriminate He.
  - destruct (Hclaim 5%float 0 [1%float] "repeat"%string) as [e He].
    + lia.
    + vm_compute in He. discriminate He.
  - destruct (Hclaim (-1)%float 5 (repeat 1%float 20) "simple"%string 0.005%float 0%nat)
      as [e He].
    + reflexivity.
    + vm_compute in He. discriminate He.
Qed.

(** ** C3: silence padding *)

Section SilencePad.
Context {A G : Type} `{Dtype A} `{Extern A G}.

Lemma nth_padded {X : Type} (before audio after : list X) (d : X) :
  (forall i, (i < length audio)%nat ->
     nth (length before + i) (before ++ audio ++ after) d = nth i audio d) /\
  (forall j, (j < length before)%nat ->
     nth j (before ++ audio ++ after) d = nth j before d) /\
  (forall j, (length before + length audio <= j)%nat ->
     nth j (before ++ audio ++ after) d
       = nth (j - length before - length audio) after d).
Proof.
  split; [|split].
  - intros i Hi. rewrite app_nth2 by lia. rewrite app_nth1 by lia.
    f_equal. lia.
  - intros j Hj. rewrite app_nth1 by lia. reflexivity.
  - intros j Hj. rewrite app_nth2 by lia. rewrite app_nth2 by lia. reflexivity.
Qed.

Lemma nth_repeat_zero (n j : nat) (d : A) :
  (j < n)%nat -> nth j (repeat zero n) d = zero.
Proof.
  intros Hj. rewrite (nth_indep _ d zero) by (rewrite repeat_length; lia).
  apply nth_repeat.
Qed.

Lemma method4_short (audio : list A) (sr : Z) (td : float) (tl : Z) (g : G) :
  py_int (td * py_float sr)%float = Ok tl -> len audio < tl ->
  extend_audio_method4_silence_padding audio sr td g
    = let before := draws (A := A) 0 0.001 (Z.to_nat ((tl - len audio) / 2)) g in
      let after := draws (A := A) 0 0.001
                     (Z.to_nat (tl - len audio - (tl - len audio) / 2)) (snd before) in
      Ok (map of_float (fst before) ++ audio ++ map of_float (fst after), snd after).
Proof.
  intros Htl Hshort.
  unfold extend_audio_method4_silence_padding, bindR, lift, ret.
  rewrite Htl. next.
  set (needed := tl - len audio).
  assert (Hb : 0 <= needed / 2 <= needed) by (apply half_bounds; unfold needed; lia).
  unfold np_random_normal.
  destruct (Z.ltb_spec (needed / 2) 0) as [Hc|_]; [lia|].
  destruct (Z.ltb_spec (needed - needed / 2) 0) as [Hc|_]; [lia|].
  replace (0.001 <? 0)%float with false by reflexivity.
  unfold Ok. cbv beta iota zeta.
  destruct (draws 0 0.001 (Z.to_nat (needed / 2)) g) as [nb g1]. simpl fst. simpl snd.
  destruct (draws 0 0.001 (Z.to_nat (needed - needed / 2)) g1) as [na g2].
  reflexivity.
Qed.

(** C3 (as the code has it).  For an input shorter than the target, with
    [before = (target_length - len(audio)) // 2] and
    [after = target_length - len(audio) - before]: both silence-padding
    functions return [target_length] samples that hold the input verbatim
    from index [before] on.  In [AudioAugmentor.extend_to_target_length] every
    other sample is zero; in [extend_audio_method4_silence_padding] the
    [before] samples in front are the first [before] draws of
    [np.random.normal(0, 0.001)], the [after] samples behind are the next
    [after] draws, and the generator is left in the state after them. *)
Theorem silence_pad_places_input (self : AudioAugmentor) (audio : list A) :
  len audio < target_length self ->
  let before := Z.to_nat ((target_length self - len audio) / 2) in
  let after := Z.to_nat (target_length self - len audio
                         - (target_length self - len audio) / 2) in
  (exists out,
     extend_to_target_length self audio "pad_silence" = Ok out /\
     len out = target_length self /\
     (forall i d, (i < length audio)%nat -> nth (before + i) out d = nth i audio d) /\
     (forall j d, (j < length out)%nat ->
        ~ (before <= j < before + length audio)%nat -> nth j out d = zero)) /\
  (forall (sr : Z) (td : float) (g : G),
     py_int (td * py_float sr)%float = Ok (target_length self) ->
     let first_draws := draws (A := A) 0 0.001 before g in
     let next_draws := draws (A := A) 0 0.001 after (snd first_draws) in
     exists out,
       extend_audio_method4_silence_padding audio sr td g = Ok (out, snd next_draws) /\
       len out = target_length self /\
       (length out = before + length audio + after)%nat /\
       length (fst first_draws) = before /\
       length (fst next_draws) = after /\
       (forall i d, (i < length audio)%nat -> nth (before + i) out d = nth i audio d) /\
       (forall j d, (j < before)%nat ->
          nth j out d = of_float (nth j (fst first_draws) 0%float)) /\
       (forall j d, (j < after)%nat ->
          nth (before + length audio + j) out d
            = of_float (nth j (fst next_draws) 0%float))).
Proof.
  intros Hshort before after.
  set (needed := target_length self - len audio).
  assert (Hb : 0 <= needed / 2 <= needed) by (apply half_bounds; unfold needed; lia).
  split.
  - rewrite extend_pad_silence_short by assumption. fold needed. fold before. fold after.
    eexists. split; [reflexivity|].
    split; [|split].
    + rewrite !len_app. unfold len. rewrite !repeat_length.
      unfold before, after, needed, len in *. lia.
    + intros i d Hi.
      destruct (nth_padded (repeat zero before) audio (repeat zero after) d) as [Hin _].
      rewrite repeat_length in Hin. apply Hin. exact Hi.
    + intros j d Hj Hout.
      destruct (nth_padded (repeat zero before) audio (repeat zero after) d)
        as [_ [Hlo Hhi]].
      rewrite !length_app, !repeat_length in Hj.
      rewrite repeat_length in Hlo, Hhi.
      destruct (Nat.lt_ge_cases j before) as [Hlt|Hge].
      * rewrite Hlo by assumption. apply nth_repeat_zero. assumption.
      * rewrite Hhi by lia. apply nth_repeat_zero. unfold before, after, needed in *. lia.
  - intros sr td g Htl first_draws next_draws.
    rewrite (method4_short audio sr td (target_length self) g Htl Hshort).
    fold needed. fold before. fold after. cbv zeta. fold first_draws. fold next_draws.
    pose proof (length_draws 0 0.001 before g) as Lb.
    pose proof (length_draws 0 0.001 after (snd first_draws)) as La.
    fold first_draws in Lb. fold next_draws in La.
    set (nb := fst first_draws) in *.
    set (na := fst next_draws) in *.
    exists (map of_float nb ++ audio ++ map of_float na).
    split; [reflexivity|].
    assert (Lmb : length (map (@of_float A _) nb) = before) by (rewrite length_map; exact Lb).
    assert (Lma : length (map (@of_float A _) na) = after) by (rewrite length_map; exact La).
    split; [|split; [|split; [|split; [|split; [|split]]]]].
    + rewrite !len_app. unfold len. rewrite Lmb, Lma.
      unfold before, after, needed, len in *. lia.
    + rewrite !length_app, Lmb, Lma. lia.
    + exact Lb.
    + exact La.
    + intros i d Hi.
      destruct (nth_padded (map of_float nb) audio (map of_float na) d) as [Hin _].
      rewrite Lmb in Hin. apply Hin. exact Hi.
    + intros j d Hj.
      destruct (nth_padded (map of_float nb) audio (map of_float na) d) as [_ [Hlo _]].
      rewrite Lmb in Hlo. rewrite Hlo by assumption.
      rewrite (nth_indep _ d (of_float 0%float)) by lia.
      apply (map_nth of_float).
    + intros j d Hj.
      destruct (nth_padded (map of_float nb) audio (map of_float na) d) as [_ [_ Hhi]].
      rewrite Lmb in Hhi. rewrite Hhi by lia.
      replace (before + length audio + j - before - length audio)%nat with j by lia.
      rewrite (nth_indep _ d (of_float 0%float)) by lia.
      apply (map_nth of_float).
Qed.
End SilencePad.

(** C3 run on three samples and a target of seven.  The class gives two
    zeros, the input, two zeros.  The script, with the generator that
    alternates between [0.001] and [-0.001], gives the draws number 0 and 1,
    the input, the draws number 2 and 3, and leaves the counter at 4. *)
Lemma silence_pad_places_input_witness :
  (exists out,
     extend_to_target_length (G := nat)
       {| target_duration := 1; sample_rate := 7; target_length := 7 |}
       [1; 2; 3]%float "pad_silence" = Ok out /\
     len out = 7 /\
     (forall i d, (i < 3)%nat -> nth (2 + i) out d = nth i [1; 2; 3]%float d)) /\
  (exists out,
     extend_audio_method4_silence_padding [1; 2; 3]%float 7 1 0%nat = Ok (out, 4%nat) /\
     len out = 7 /\
     nth 1 out 0%float = (0 - 0.001)%float /\
     nth 5 out 0%float = (0 + 0.001)%float /\
     nth 6 out 0%float = (0 - 0.001)%float).
Proof.
  destruct (silence_pad_places_input (A := float) (G := nat)
              {| target_duration := 1; sample_rate := 7; target_length := 7 |}
              [1; 2; 3]%float) as [[out [Hrun [Hlen [Hin _]]]] Hscript].
  - reflexivity.
  - split.
    + exists out. split; [exact Hrun|]. split; [exact Hlen|]. exact Hin.
    + destruct (Hscript 7 1%float 0%nat) as [o [Hr [Hl [_ [_ [_ [_ [Hfront Hback]]]]]]]].
      * vm_compute. reflexivity.
      * exists o. split; [exact Hr|]. split; [exact Hl|]. split; [|split].
        -- apply (Hfront 1%nat 0%float). simpl. lia.
        -- apply (Hback 0%nat 0%float). simpl. lia.
        -- apply (Hback 1%nat 0%float). simpl. lia.
Defined.

(** C3 as the specification words it fails on the script: with a generator
    whose draws are not zero, the sample at index 0 of
    [extend_audio_method4_silence_padding] is the draw 0.001, not silence. *)
Lemma method4_pads_with_noise :
  ~ (forall (audio : list float) (sr : Z) (td : float) (tl : Z) (g : nat)
            (out : list float) (g' : nat),
        py_int (td * py_float sr)%float = Ok tl -> len audio < tl ->
        extend_audio_method4_silence_padding audio sr td g = Ok (out, g') ->
        forall j : nat,
          Z.of_nat j < tl ->
          ~ ((tl - len audio) / 2 <= Z.of_nat j < (tl - len audio) / 2 + len audio) ->
          nth j out 0%float = 0%float).
Proof.
  intros Hclaim.
  pose proof (Hclaim [1; 2; 3]%float 1 6%float 6 0%nat
                [0.001; 1; 2; 3; -0.001; 0.001]%float 3%nat) as Hc.
  specialize (Hc ltac:(vm_compute; reflexivity) ltac:(reflexivity)
                 ltac:(vm_compute; reflexivity) 0%nat).
  assert (E : nth 0 [0.001; 1; 2; 3; -0.001; 0.001]%float 0%float = 0%float).
  { apply Hc.
    - reflexivity.
    - vm_compute. intros [Hlo _]. apply Hlo. reflexivity. }
  simpl in E.
  apply (f_equal (fun x => PrimFloat.eqb x 0)) in E.
  vm_compute in E. discriminate E.
Qed.

(** ** C7: tiling by [extend_audio_method1_repeat] and by [repeat] *)

Section Tiling.
Context {A G : Type} `{Dtype A} `{Extern A G}.

Lemma crossfade_seams_spec (current_length fade_length num_repeats : Z) (l : list A) :
  0 <= fade_length -> 0 <= current_length ->
  exists out,
    crossfade_seams current_length fade_length num_repeats l = Ok out /\
    length out = length l /\
    forall (j : nat) (d : A),
      (forall k, 1 <= k < num_repeats ->
         k * current_length + fade_length < len l ->
         ~ (k * current_length - fade_length <= Z.of_nat j
              < k * current_length + fade_length)) ->
      nth j out d = nth j l d.
Proof.
  intros HF HL. unfold crossfade_seams.
  destruct (crossfade_loop_spec current_length fade_length (py_range 1 num_repeats) HF HL)
    with (l := l) as [out [E [L Frame]]].
  { apply Forall_forall. intros k Hk. apply in_py_range in Hk. lia. }
  exists out. split; [exact E|]. split; [exact L|].
  intros j d Hout. apply Frame. intros k Hk [Hfit Hwin].
  apply in_py_range in Hk. exact (Hout k Hk Hfit Hwin).
Qed.

(** [extend_audio_method1_repeat] on a non-empty input: the result has
    [target_length] samples, and away from the seams it is the tiled input. *)
Lemma method1_spec (audio : list A) (sr : Z) (td : float) (tl F : Z) :
  py_int (td * py_float sr)%float = Ok tl -> 0 <= tl -> audio <> [] ->
  py_int (0.05 * py_float sr)%float = Ok F -> 0 <= F ->
  exists out c,
    extend_audio_method1_repeat audio sr td = Ok out /\
    len out = tl /\
    np_ceil_div tl (len audio) = Ok c /\
    forall (j : nat) (d : A),
      Z.of_nat j < tl ->
      (forall s, 1 <= s < c -> s * len audio + F < c * len audio ->
         ~ (s * len audio - F <= Z.of_nat j < s * len audio + F)) ->
      nth j out d = nth (j mod length audio) audio d.
Proof.
  intros Htl Hpos Hne HF HF0.
  assert (HL : 0 < len audio) by (apply len_pos; assumption).
  destruct (np_ceil_div_spec tl (len audio) HL) as [c [Ec [Hc1 Hc2]]].
  assert (Hc : 0 <= c) by nia.
  unfold extend_audio_method1_repeat.
  rewrite Htl. simpl bind. rewrite Ec. simpl bind.
  rewrite np_tile_ok by assumption. simpl bind. rewrite HF. simpl bind.
  set (tiled := concat (repeat audio (Z.to_nat c))).
  assert (Lt : len tiled = c * len audio) by (apply len_concat_repeat; assumption).
  destruct (crossfade_seams_spec (len audio) F c tiled HF0 ltac:(lia))
    as [faded [Ef [Lf Frame]]].
  rewrite Ef. simpl bind.
  exists (py_slice faded None (Some tl)), c.
  split; [reflexivity|].
  assert (Lfaded : len faded = c * len audio) by (unfold len in *; lia).
  split; [apply len_py_slice_to; lia|].
  split; [reflexivity|].
  intros j d Hj Hout.
  rewrite py_slice_to by assumption. rewrite nth_firstn.
  destruct (Nat.ltb_spec j (Z.to_nat tl)) as [_|Hc']; [|lia].
  rewrite Frame.
  - unfold tiled. apply nth_concat_repeat. unfold len in *. nia.
  - intros s Hs Hfit. rewrite Lt in Hfit. apply Hout; assumption.
Qed.

(** C7 (as the code has it).  For a non-empty input of [L] samples and a
    target of exactly [k * L] samples, [k >= 1]: the [repeat] strategy of
    the class, which has no crossfade, returns the [k] concatenated copies of
    the input, and [extend_audio_method1_repeat] returns [k * L] samples that
    equal those of the [k] copies at every index that is not within
    [fade_length] samples, before or after, of a seam [s * L] whose fade-in
    window ends before the end of the buffer. *)
Theorem repeat_tiles_whole_copies (audio : list A) (k : Z) :
  1 <= k -> audio <> [] ->
  (forall self : AudioAugmentor,
      target_length self = k * len audio ->
      extend_to_target_length self audio "repeat"
        = Ok (concat (repeat audio (Z.to_nat k)))) /\
  (forall (sr : Z) (td : float) (fade_length : Z),
      0 < sr < 2 ^ 63 ->
      py_int (td * py_float sr)%float = Ok (k * len audio) ->
      py_int (0.05 * py_float sr)%float = Ok fade_length ->
      exists out,
        extend_audio_method1_repeat audio sr td = Ok out /\
        len out = k * len audio /\
        forall (j : nat) (d : A),
          Z.of_nat j < k * len audio ->
          (forall s, 1 <= s < k ->
             s * len audio + fade_length < k * len audio ->
             ~ (s * len audio - fade_length <= Z.of_nat j
                  < s * len audio + fade_length)) ->
          nth j out d = nth j (concat (repeat audio (Z.to_nat k))) d).
Proof.
  intros Hk Hne.
  assert (HL : 0 < len audio) by (apply len_pos; assumption).
  split.
  - intros self Htl.
    assert (Hwhole : py_slice (concat (repeat audio (Z.to_nat k))) None
                       (Some (k * len audio))
                     = concat (repeat audio (Z.to_nat k))).
    { rewrite py_slice_to by nia. apply firstn_all2.
      pose proof (len_concat_repeat audio k ltac:(lia)) as E. unfold len in *. lia. }
    destruct (Z.le_gt_cases (target_length self) (len audio)) as [Hlong|Hshort].
    + assert (k = 1) by nia. subst k.
      rewrite extend_long_input by assumption. rewrite Htl.
      simpl in Hwhole. rewrite app_nil_r in Hwhole.
      simpl. rewrite app_nil_r. f_equal. exact Hwhole.
    + unfold extend_to_target_length.
      rewrite (extend_short_input self audio "repeat") by lia. simpl String.eqb. cbv iota.
      rewrite Htl. rewrite np_ceil_div_exact by assumption. simpl bind.
      rewrite np_tile_ok by lia. simpl bind. f_equal. exact Hwhole.
  - intros sr td F Hsr Htl HF.
    assert (HF0 : 0 <= F) by (apply (fade_length_nonneg sr); [lia|exact HF]).
    destruct (method1_spec audio sr td (k * len audio) F Htl ltac:(nia) Hne HF HF0)
      as [out [c [Hrun [Hlen [Hc Hnth]]]]].
    rewrite np_ceil_div_exact in Hc by assumption. inversion Hc. subst c.
    exists out. split; [exact Hrun|]. split; [exact Hlen|].
    intros j d Hj Hout. rewrite (Hnth j d Hj Hout).
    symmetry. apply nth_concat_repeat. unfold len in *. nia.
Qed.
End Tiling.

(** C7 run on four samples at 40 Hz (fade windows of two samples) and a
    target of twelve: index 0 and index 6 are away from the seams 4 and 8. *)
Lemma repeat_tiles_whole_copies_witness :
  extend_to_target_length (G := nat)
    {| target_duration := 0.3; sample_rate := 40; target_length := 12 |}
    [1; 2; 3; 4]%float "repeat"
    = Ok [1; 2; 3; 4; 1; 2; 3; 4; 1; 2; 3; 4]%float /\
  exists out,
    extend_audio_method1_repeat [1; 2; 3; 4]%float 40 0.3 = Ok out /\
    len out = 12 /\ nth 0 out 0%float = 1%float.
Proof.
  destruct (repeat_tiles_whole_copies (A := float) (G := nat) [1; 2; 3; 4]%float 3)
    as [Hclass Hscript].
  - lia.
  - intros E. discriminate E.
  - split.
    + apply (Hclass {| target_duration := 0.3; sample_rate := 40; target_length := 12 |}).
      reflexivity.
    + destruct (Hscript 40 0.3%float 2) as [out [Hrun [Hlen Hnth]]].
      * lia.
      * vm_compute. reflexivity.
      * vm_compute. reflexivity.
      * exists out. split; [exact Hrun|]. split; [exact Hlen|].
        rewrite (Hnth 0%nat 0%float).
        -- reflexivity.
        -- reflexivity.
        -- intros s Hs _ Hwin. unfold len in Hwin. simpl length in Hwin. lia.
Defined.

(** C7 as the specification words it, with the crossfade regions
    [[s * L, s * L + fade_length)] after the seams: four samples three times
    at 40 Hz (windows of two samples); index 3 is in no such region, the
    copies have 4 there and [extend_audio_method1_repeat] has 0, the end of
    the fade-out before the seam at index 4. *)
Lemma method1_repeat_differs_before_the_seam :
  ~ (forall (audio : list float) (k sr : Z) (td : float) (fade_length : Z)
            (out : list float),
        1 <= k -> audio <> [] ->
        py_int (td * py_float sr)%float = Ok (k * len audio) ->
        py_int (0.05 * py_float sr)%float = Ok fade_length ->
        extend_audio_method1_repeat audio sr td = Ok out ->
        forall j : nat,
          Z.of_nat j < k * len audio ->
          (forall s, 1 <= s ->
             ~ (s * len audio <= Z.of_nat j < s * len audio + fade_length)) ->
          nth j out 0%float = nth j (concat (repeat audio (Z.to_nat k))) 0%float).
Proof.
  intros Hclaim.
  pose proof (Hclaim [1; 2; 3; 4]%float 3 40 0.3%float 2
                [1; 2; 3; 0; 0; 2; 3; 0; 0; 2; 3; 4]%float
                ltac:(lia) ltac:(discriminate)
                ltac:(vm_compute; reflexivity) ltac:(vm_compute; reflexivity)
                ltac:(vm_compute; reflexivity) 3%nat ltac:(reflexivity)) as E.
  assert (Hout : forall s, 1 <= s ->
            ~ (s * len [1; 2; 3; 4]%float <= Z.of_nat 3
                 < s * len [1; 2; 3; 4]%float + 2)).
  { intros s Hs Hwin. unfold len in Hwin. simpl in Hwin. lia. }
  specialize (E Hout). simpl in E.
  apply (f_equal (fun x => PrimFloat.eqb x 0)) in E.
  vm_compute in E. discriminate E.
Qed.

(** ** C4: the reverb *)

Section Reverb.
Context {A : Type} `{Dtype A}.

(** The method of the class runs the code of the script's function. *)
Lemma add_reverb_is_simple_reverb (self : AudioAugmentor) (audio : list A)
    (room_size : float) :
  add_reverb self audio room_size = simple_reverb audio (sample_rate self) room_size.
Proof. reflexivity. Qed.

(** C4 (as the code has it).  For a room size that is not negative, with
    [delay = int(sample_rate * 0.05 * room_size)], the product truncated
    toward zero, and [decay = 0.3 * room_size]: both reverbs return as many
    samples as they are given, the first [delay] of them unchanged and each
    later one increased by the decayed sample [delay] places before it. *)
Theorem reverb_is_truncating_echo (self : AudioAugmentor) (audio : list A)
    (room_size : float) (delay : Z) :
  0 <= sample_rate self < 2 ^ 63 -> (0 <=? room_size)%float = true ->
  py_int (py_float (sample_rate self) * 0.05 * room_size)%float = Ok delay ->
  exists out,
    simple_reverb audio (sample_rate self) room_size = Ok out /\
    add_reverb self audio room_size = Ok out /\
    length out = length audio /\
    forall (i : nat) (x : A), (i < length audio)%nat ->
      nth i out x =
        if Z.of_nat i <? delay then nth i audio x
        else add (nth i audio x)
                 (mul (nth (i - Z.to_nat delay) audio x)
                      (of_float (0.3 * room_size)%float)).
Proof.
  intros Hsr Hrs Hd.
  assert (Hpos : 0 <= delay) by (apply (delay_nonneg (sample_rate self) room_size); assumption).
  destruct (simple_reverb_spec audio (sample_rate self) room_size delay Hd Hpos)
    as [out [Hrun [Hlen Hnth]]].
  exists out. rewrite add_reverb_is_simple_reverb.
  repeat split; assumption.
Qed.
End Reverb.

(** C4 run at 22050 Hz with a room size of 0.3: the delay is 330 samples. *)
Lemma reverb_is_truncating_echo_witness :
  exists out,
    add_reverb {| target_duration := 5; sample_rate := 22050; target_length := 110250 |}
      [1; 2; 3]%float 0.3 = Ok out /\
    length out = 3%nat.
Proof.
  destruct (reverb_is_truncating_echo (A := float)
              {| target_duration := 5; sample_rate := 22050; target_length := 110250 |}
              [1; 2; 3]%float 0.3 330) as [out [_ [Hrun [Hlen _]]]].
  - simpl. lia.
  - reflexivity.
  - vm_compute. reflexivity.
  - exists out. split; [exact Hrun|exact Hlen].
Defined.

(** C4 as the specification words it, with the rounded delay: at 22050 Hz and
    a room size of 0.3 the product is 330.75; the code delays by 330 samples,
    the reference by 331, and they differ at index 330. *)
Lemma reverb_delay_is_truncated_not_rounded :
  ~ (forall (audio : list float) (sr : Z) (room_size : float),
        (0 <=? room_size)%float = true -> (room_size <=? 1)%float = true ->
        simple_reverb audio sr room_size = reverb_reference audio sr room_size).
Proof.
  intros Hclaim.
  pose proof (Hclaim (repeat 1%float 332) 22050 0.3%float eq_refl eq_refl) as E.
  apply (f_equal (fun r : result (list float) =>
                    match r with
                    | inr l => PrimFloat.eqb (nth 330 l 0%float) 1
                    | inl _ => false
                    end)) in E.
  vm_compute in E. discriminate E.
Qed.

(** ** C5: what the seam loops touch *)

Section SeamFrame.
Context {A : Type} `{Dtype A}.

End SeamFrame.



(** A window that ends exactly at the end of the buffer is left as it is:
    the test of the loop is [start_idx + fade_length < len(repeated)]. *)
Example fade_seams_skips_flush_window :
  fade_seams 4 2 2 (repeat 1%float 6) = Ok (repeat 1%float 6).
Proof. vm_compute. reflexivity. Qed.

(** Where the windows of the pipelines' loop overlap
    ([period < fade_length]), a sample gets the ramp of each window it lies
    in: with seams every sample and windows of three, sample 3 is multiplied
    by the factor 1 of the window after seam 1 and by the factor 0.5 of the
    window after seam 2. *)
Example fade_seams_overlapping_windows :
  fade_seams 1 3 3 (repeat 1%float 8) = Ok [1; 0; 0; 0.5; 1; 1; 1; 1]%float.
Proof. vm_compute. reflexivity. Qed.

(** Where the windows of two seams of [extend_audio_method1_repeat] overlap
    ([fade_length <= period < 2 * fade_length]), a sample gets both ramps:
    with seams every four samples and windows of three, sample 6 is faded in
    after the seam 4 by the factor 1 and faded out before the seam 8 by the
    factor 0.5. *)
Example crossfade_seams_overlapping_windows :
  crossfade_seams 4 3 3 (repeat 1%float 12)
    = Ok [1; 1; 0.5; 0; 0; 0.5; 0.5; 0; 0; 0.5; 1; 1]%float.
Proof. vm_compute. reflexivity. Qed.

(** ** C2: peak normalization and silence *)

Lemma concat_repeat_repeat {X : Type} (x : X) (n c : nat) :
  concat (repeat (repeat x n) c) = repeat x (c * n).
Proof.
  induction c as [|c IH]; simpl.
  - reflexivity.
  - rewrite IH, repeat_app. reflexivity.
Qed.

Lemma firstn_repeat_le {X : Type} (x : X) (k m : nat) :
  (k <= m)%nat -> firstn k (repeat x m) = repeat x k.
Proof.
  revert m. induction k as [|k IH]; intros m Hk.
  - reflexivity.
  - destruct m as [|m]; [lia|]. simpl. rewrite IH by lia. reflexivity.
Qed.

Lemma map_repeat_const {X Y : Type} (f : X -> Y) (x : X) (n : nat) :
  map f (repeat x n) = repeat (f x) n.
Proof.
  induction n as [|n IH]; simpl; [reflexivity|]. rewrite IH. reflexivity.
Qed.

Lemma fold_maximum_zeros (n : nat) :
  fold_left (np_maximum (A := float)) (repeat 0%float n) 0%float = 0%float.
Proof.
  induction n as [|n IH]; simpl; [reflexivity|]. exact IH.
Qed.

Lemma np_max_abs_zeros (n : nat) :
  (0 < n)%nat -> np_max (np_abs (repeat 0%float n)) = Ok 0%float.
Proof.
  intros Hn. destruct n as [|n]; [lia|].
  unfold np_abs. rewrite map_repeat_const. simpl.
  change (PrimFloat.abs 0) with 0%float.
  change (np_maximum 0%float 0%float) with 0%float.
  rewrite fold_maximum_zeros. reflexivity.
Qed.

Section Silence.
Context {G : Type} `{Extern float G}.

(** The guarded function of the script leaves a silent signal as it is. *)
Lemma normalize_audio_keeps_silence (n : nat) (target_peak : float) :
  (0 < n)%nat ->
  normalize_audio (repeat 0%float n) target_peak = Ok (repeat 0%float n).
Proof.
  intros Hn. unfold normalize_audio.
  rewrite np_max_abs_zeros by assumption. reflexivity.
Qed.

Lemma repeat_strategy_on_constant (self : AudioAugmentor) (x : float) (n : nat) :
  0 <= target_length self -> (0 < n)%nat ->
  extend_to_target_length self (repeat x n) "repeat"
    = Ok (repeat x (Z.to_nat (target_length self))).
Proof.
  intros Htl Hn.
  assert (Hlen : len (repeat x n) = Z.of_nat n) by (unfold len; rewrite repeat_length; reflexivity).
  destruct (Z.le_gt_cases (target_length self) (len (repeat x n))) as [Hlong|Hshort].
  - rewrite extend_long_input by assumption.
    rewrite py_slice_to by assumption. rewrite firstn_repeat_le by lia. reflexivity.
  - unfold extend_to_target_length.
    rewrite (extend_short_input self (repeat x n) "repeat") by lia.
    simpl String.eqb. cbv iota.
    destruct (np_ceil_div_spec (target_length self) (len (repeat x n)) ltac:(lia))
      as [c [Ec [Hc1 Hc2]]].
    rewrite Ec. simpl bind. assert (Hc : 0 <= c) by nia.
    rewrite np_tile_ok by assumption. simpl bind.
    rewrite py_slice_to by assumption.
    rewrite concat_repeat_repeat, firstn_repeat_le by nia. reflexivity.
Qed.

(** C2 on [AudioAugmentor.augment_audio]: the last statement divides by
    [np.max(np.abs(extended))] without a guard, so a silent input of any
    length comes back as [target_length] samples that are all [nan]. *)
Theorem final_normalization_divides_by_zero (self : AudioAugmentor) (n : nat)
    (noise_level : float) (g : G) :
  0 < target_length self -> (0 < n)%nat ->
  augment_audio self (repeat 0%float n) "simple" noise_level g
    = Ok (repeat nan (Z.to_nat (target_length self)), g).
Proof.
  intros Htl Hn. unfold augment_audio, bindR, lift.
  change (String.eqb "simple" "simple") with true. cbv beta iota.
  rewrite repeat_strategy_on_constant by lia. next.
  set (m := Z.to_nat (target_length self)).
  assert (Hlen : len (repeat 0%float m) = target_length self).
  { unfold len. rewrite repeat_length. lia. }
  rewrite Hlen.
  rewrite Z.gtb_ltb, Z.ltb_irrefl.
  rewrite np_max_abs_zeros by lia. unfold Ok, ret. cbv beta iota.
  unfold np_divide, np_scale. rewrite !map_repeat_const.
  reflexivity.
Qed.
End Silence.

(** One silent sample, a target of two samples. *)
Lemma final_normalization_divides_by_zero_witness :
  augment_audio {| target_duration := 1; sample_rate := 2; target_length := 2 |}
    [0%float] "simple" 0.005 0%nat = Ok ([nan; nan], 0%nat).
Proof.
  apply (final_normalization_divides_by_zero (G := nat)
           {| target_duration := 1; sample_rate := 2; target_length := 2 |}
           1%nat 0.005%float 0%nat).
  - reflexivity.
  - lia.
Defined.

(** ** C9: normalizing twice *)

Section ExactNormalization.
Local Open Scope Qc_scope.

Lemma Qcinv_nonneg (m : Qc) : 0 <= m -> 0 <= / m.
Proof.
  unfold Qcle, Qcinv. simpl. intros Hm.
  rewrite Qred_correct. apply Qinv_le_0_compat. exact Hm.
Qed.

Lemma geb_exact (a b : Qc) : geb a b = true <-> b <= a.
Proof. simpl. unfold Qcle. apply Qle_bool_iff. Qed.

Lemma gtb_exact (a b : Qc) : gtb a b = true <-> b < a.
Proof.
  simpl. rewrite negb_true_iff. split.
  - intros Hf. apply Qcnot_le_lt. intros Hle.
    apply Qle_bool_iff in Hle. congruence.
  - intros Hlt. destruct (Qle_bool a b) eqn:E; [|reflexivity].
    apply Qle_bool_iff in E. exfalso. exact (Qclt_not_le _ _ Hlt E).
Qed.

Lemma np_maximum_exact (a b : Qc) :
  np_maximum a b = if geb a b then a else b.
Proof. unfold np_maximum. simpl isnan. rewrite orb_false_r. reflexivity. Qed.

(** Scaling by a factor that is not negative commutes with the maximum. *)
Lemma np_maximum_scale (k a b : Qc) :
  0 <= k -> np_maximum (a * k) (b * k) = np_maximum a b * k.
Proof.
  intros Hk. rewrite !np_maximum_exact.
  destruct (geb a b) eqn:Eab.
  - apply geb_exact in Eab.
    assert (Hs : geb (a * k) (b * k) = true).
    { apply geb_exact. apply Qcmult_le_compat_r; assumption. }
    rewrite Hs. reflexivity.
  - assert (Hab : a <= b).
    { apply Qclt_le_weak, Qcnot_le_lt. intros Hle.
      apply geb_exact in Hle. congruence. }
    destruct (geb (a * k) (b * k)) eqn:Es; [|reflexivity].
    apply geb_exact in Es. apply Qcle_antisym; [|exact Es].
    apply Qcmult_le_compat_r; assumption.
Qed.

Lemma fold_maximum_scale (k : Qc) (r : list Qc) (a : Qc) :
  0 <= k ->
  fold_left np_maximum (map (fun t => t * k) r) (a * k)
    = fold_left np_maximum r a * k.
Proof.
  intros Hk. revert a. induction r as [|b r IH]; intros a; simpl.
  - reflexivity.
  - rewrite np_maximum_scale by assumption. apply IH.
Qed.

Lemma np_abs_scale (k : Qc) (audio : list Qc) :
  0 <= k -> np_abs (map (fun x => x * k) audio) = map (fun t => t * k) (np_abs audio).
Proof.
  intros Hk. unfold np_abs. rewrite !map_map. apply map_ext.
  intros x. simpl absv. rewrite Qcabs_Qcmult, (Qcabs_pos k Hk). reflexivity.
Qed.

Lemma np_max_abs_scale (k : Qc) (audio : list Qc) (m : Qc) :
  0 <= k -> np_max (np_abs audio) = Ok m ->
  np_max (np_abs (map (fun x => x * k) audio)) = Ok (m * k).
Proof.
  intros Hk Hm. rewrite np_abs_scale by assumption.
  destruct (np_abs audio) as [|a r]; simpl in *.
  - discriminate Hm.
  - inversion Hm. rewrite fold_maximum_scale by assumption. reflexivity.
Qed.

(** Dividing by the peak and multiplying by the target is one scaling. *)
Lemma normalize_as_scaling (audio : list Qc) (m c : Qc) :
  np_scale (np_divide audio m) c = map (fun x => x * (/ m * c)) audio.
Proof.
  unfold np_scale, np_divide. rewrite map_map. apply map_ext.
  intros x. simpl. unfold Qcdiv. rewrite Qcmult_assoc. reflexivity.
Qed.

(** The peak of a normalized signal is the target peak. *)
Lemma normalize_audio_peak_exact (audio : list Qc) (target_peak : float) (m : Qc) :
  (0 <= Q_of_float target_peak)%Q ->
  np_max (np_abs audio) = Ok m -> 0 < m ->
  exists out,
    normalize_audio audio target_peak = Ok out /\
    out = map (fun x => x * (/ m * of_float target_peak)) audio /\
    np_max (np_abs out) = Ok (of_float target_peak).
Proof.
  intros Hc Hm Hpos.
  assert (Hc' : 0 <= of_float target_peak).
  { simpl. unfold Qcle. simpl. rewrite Qred_correct. exact Hc. }
  assert (Hk : 0 <= / m * of_float target_peak).
  { rewrite <- (Qcmult_0_l (of_float target_peak)).
    apply Qcmult_le_compat_r; [|exact Hc'].
    apply Qcinv_nonneg, Qclt_le_weak, Hpos. }
  unfold normalize_audio. rewrite Hm. cbv beta iota delta [bind Ok].
  replace (gtb m zero) with true by (symmetry; apply gtb_exact; exact Hpos).
  eexists. split; [reflexivity|]. split; [apply normalize_as_scaling|].
  rewrite normalize_as_scaling.
  rewrite (np_max_abs_scale _ audio m Hk Hm). f_equal.
  rewrite Qcmult_assoc, Qcmult_inv_r, Qcmult_1_l.
  - reflexivity.
  - intros E. rewrite E in Hpos. exact (Qclt_not_eq _ _ Hpos eq_refl).
Qed.

(** C9 (as the code has it).  In sample arithmetic without rounding (the
    instance [exact]) and for a target peak that is not negative,
    normalizing a normalized signal gives the same signal; on the empty
    signal both sides raise the same error. *)
Theorem normalize_audio_idempotent (audio : list Qc) (target_peak : float) :
  (0 <= Q_of_float target_peak)%Q ->
  (once <- normalize_audio audio target_peak ;; normalize_audio once target_peak)
    = normalize_audio audio target_peak.
Proof.
  intros Hc.
  destruct (np_max (np_abs audio)) as [e|m] eqn:Hm.
  - unfold normalize_audio. rewrite Hm. reflexivity.
  - destruct (gtb m zero) eqn:Hgt.
    + apply gtb_exact in Hgt.
      destruct (normalize_audio_peak_exact audio target_peak m Hc Hm Hgt)
        as [out [Hrun [_ Hpeak]]].
      rewrite Hrun. cbv beta iota delta [bind Ok].
      unfold normalize_audio. rewrite Hpeak. cbv beta iota delta [bind Ok].
      destruct (gtb (of_float target_peak) zero) eqn:Hc0; [|reflexivity].
      apply gtb_exact in Hc0. f_equal.
      unfold np_scale, np_divide. rewrite map_map.
      rewrite <- (map_id out) at 2. apply map_ext.
      intros v. simpl mul. simpl div. unfold Qcdiv.
      rewrite <- Qcmult_assoc, Qcmult_inv_l, Qcmult_1_r.
      * reflexivity.
      * intros E. simpl of_float in Hc0. rewrite E in Hc0.
        exact (Qclt_not_eq _ _ Hc0 eq_refl).
    + assert (Hsame : normalize_audio audio target_peak = Ok audio).
      { unfold normalize_audio. rewrite Hm. cbv beta iota delta [bind Ok].
        rewrite Hgt. reflexivity. }
      rewrite Hsame. cbv beta iota delta [bind Ok]. exact Hsame.
Qed.
End ExactNormalization.

(** C9 run with the default target peak 0.95 on the signal 1, -2, 1/2. *)
Lemma normalize_audio_idempotent_witness :
  (once <- normalize_audio (A := Qc) (Q2Qc 1 :: Q2Qc (-2) :: Q2Qc (1 # 2) :: nil)
             default_target_peak ;;
   normalize_audio once default_target_peak)
  = normalize_audio (A := Qc) (Q2Qc 1 :: Q2Qc (-2) :: Q2Qc (1 # 2) :: nil)
      default_target_peak.
Proof.
  apply (normalize_audio_idempotent
           (Q2Qc 1 :: Q2Qc (-2) :: Q2Qc (1 # 2) :: nil) default_target_peak).
  vm_compute. discriminate.
Defined.

(** C9 as the specification words it fails in binary64: the signal
    1, 0.5263157894736843 is normalized to 0.95, 0.5, and normalizing that
    gives 0.95, 0.49999999999999994, because [0.5 / 0.95 * 0.95] is rounded
    twice. *)
Lemma normalize_audio_rounds_twice :
  ~ (forall audio : list float,
        (once <- normalize_audio audio default_target_peak ;;
         normalize_audio once default_target_peak)
        = normalize_audio audio default_target_peak).
Proof.
  intros Hclaim.
  pose proof (Hclaim [1; 0.5263157894736843]%float) as E.
  apply (f_equal (fun r : result (list float) =>
                    match r with
                    | inr l => PrimFloat.eqb (nth 1 l 0%float) 0.5
                    | inl _ => false
                    end)) in E.
  vm_compute in E. discriminate E.
Qed.

(** ** The ceiling of a quotient, in binary64 and on the integers

    The two agree on the quotients the runs above take. *)

Example np_ceil_div_binary64_agrees :
  np_ceil_div_binary64 110250 11025 = np_ceil_div 110250 11025 /\
  np_ceil_div_binary64 110250 13781 = np_ceil_div 110250 13781 /\
  np_ceil_div_binary64 2720 1 = np_ceil_div 2720 1 /\
  np_ceil_div_binary64 12 4 = np_ceil_div 12 4 /\
  np_ceil_div_binary64 7 3 = np_ceil_div 7 3 /\
  np_ceil_div_binary64 7 4 = np_ceil_div 7 4 /\
  np_ceil_div_binary64 7 0 = np_ceil_div 7 0.
Proof. vm_compute. repeat split. Qed.

(** * Further properties of the code *)

(** ** Tiling a signal and cutting it to a length

    [np.tile] to the ceiling of the quotient followed by [[:target]] is what
    [extend_audio_method2_stretch_repeat] and the strategies [repeat] and
    [stretch_and_repeat] do. *)

Lemma tile_and_cut (X : Type) (l : list X) (tl : Z) :
  l <> [] -> 0 <= tl ->
  exists out,
    (c <- np_ceil_div tl (len l) ;;
     tiled <- np_tile l c ;;
     Ok (py_slice tiled None (Some tl))) = Ok out /\
    len out = tl /\
    forall (j : nat) (d : X), Z.of_nat j < tl -> nth j out d = nth (j mod length l) l d.
Proof.
  intros Hne Htl.
  assert (HL : 0 < len l) by (apply len_pos; assumption).
  destruct (np_ceil_div_spec tl (len l) HL) as [c [Ec [Hc1 Hc2]]].
  assert (Hc : 0 <= c) by nia.
  rewrite Ec. simpl bind. rewrite np_tile_ok by assumption. simpl bind.
  eexists. split; [reflexivity|].
  assert (Lt : len (concat (repeat l (Z.to_nat c))) = c * len l)
    by (apply len_concat_repeat; assumption).
  split; [apply len_py_slice_to; lia|].
  intros j d Hj. rewrite py_slice_to by assumption. rewrite nth_firstn.
  destruct (Nat.ltb_spec j (Z.to_nat tl)) as [_|Hc']; [|lia].
  apply nth_concat_repeat. unfold len in *. nia.
Qed.

Section ScriptRepeat.
Context {A G : Type} `{Dtype A} `{Extern A G}.

(** X1.  For a positive duration, a positive sample rate and a non-empty
    input, [extend_audio_method1_repeat] returns exactly
    [int(target_duration * sr)] samples. *)
Theorem method1_reaches_target_length (audio : list A) (sr : Z) (td : float)
    (tl fade_length : Z) :
  (0 <? td)%float = true -> 0 < sr < 2 ^ 63 -> audio <> [] ->
  py_int (td * py_float sr)%float = Ok tl ->
  py_int (0.05 * py_float sr)%float = Ok fade_length ->
  exists out, extend_audio_method1_repeat audio sr td = Ok out /\ len out = tl.
Proof.
  intros Htd Hsr Hne Htl HF.
  assert (Hpos : 0 <= tl) by (apply (target_length_nonneg td sr); [exact Htd|lia|exact Htl]).
  assert (HF0 : 0 <= fade_length) by (apply (fade_length_nonneg sr); [lia|exact HF]).
  destruct (method1_spec audio sr td tl fade_length Htl Hpos Hne HF HF0)
    as [out [c [Hrun [Hlen _]]]].
  exists out. split; assumption.
Qed.

(** X2.  On the empty input the repeat functions divide by its length:
    [extend_audio_method1_repeat] raises [ZeroDivisionError] for every
    target, the strategy [repeat] of the class raises it for a positive
    target, and for a target that is not positive every strategy of the
    class returns the empty signal. *)
Theorem repeat_of_empty_input :
  (forall (sr : Z) (td : float) (tl : Z),
      py_int (td * py_float sr)%float = Ok tl ->
      extend_audio_method1_repeat (A := A) [] sr td = Raise ZeroDivisionError) /\
  (forall self : AudioAugmentor,
      0 < target_length self ->
      extend_to_target_length self [] "repeat" = Raise ZeroDivisionError) /\
  (forall (self : AudioAugmentor) (method : string),
      target_length self <= 0 ->
      extend_to_target_length self [] method = Ok []).
Proof.
  split; [|split].
  - intros sr td tl Htl. unfold extend_audio_method1_repeat. rewrite Htl. reflexivity.
  - intros self Htl. unfold extend_to_target_length.
    rewrite (extend_short_input self [] "repeat") by (unfold len; simpl; lia).
    reflexivity.
  - intros self method Htl.
    rewrite extend_long_input by (unfold len; simpl; lia).
    unfold py_slice. simpl skipn. rewrite firstn_nil. reflexivity.
Qed.

(** X3.  An input that already has [target_length] samples or more comes
    back from [extend_audio_method1_repeat] as its first [target_length]
    samples: the tile is a single copy and the seam loop has no turn. *)
Theorem method1_truncates_long_input (audio : list A) (sr : Z) (td : float)
    (tl fade_length : Z) :
  py_int (td * py_float sr)%float = Ok tl -> 0 <= tl <= len audio -> audio <> [] ->
  py_int (0.05 * py_float sr)%float = Ok fade_length ->
  extend_audio_method1_repeat audio sr td = Ok (firstn (Z.to_nat tl) audio).
Proof.
  intros Htl [Hpos Hlong] Hne HF.
  assert (HL : 0 < len audio) by (apply len_pos; assumption).
  destruct (np_ceil_div_spec tl (len audio) HL) as [c [Ec [Hc1 Hc2]]].
  assert (Hc : c = 0 \/ c = 1) by nia.
  unfold extend_audio_method1_repeat. rewrite Htl. simpl bind. rewrite Ec. simpl bind.
  rewrite np_tile_ok by lia. simpl bind. rewrite HF. simpl bind.
  unfold crossfade_seams.
  assert (Hrange : py_range 1 c = []).
  { unfold py_range. replace (Z.to_nat (c - 1)) with 0%nat by lia. reflexivity. }
  rewrite Hrange. simpl bind. f_equal.
  rewrite py_slice_to by assumption.
  destruct Hc as [-> | ->]; simpl.
  - assert (tl = 0) by lia. subst tl. reflexivity.
  - rewrite app_nil_r. reflexivity.
Qed.

(** X4.  [extend_audio_method2_stretch_repeat] returns [target_length] samples
    that repeat the stretched signal without any fade: sample [j] is sample
    [j mod len(stretched)] of what the stretcher returned. *)
Theorem method2_repeats_the_stretched_signal (audio stretched : list A) (sr : Z)
    (td : float) (tl : Z) :
  (0 <? td)%float = true -> 0 < sr < 2 ^ 63 ->
  py_int (td * py_float sr)%float = Ok tl ->
  librosa_time_stretch audio 0.8%float = Ok stretched -> stretched <> [] ->
  exists out,
    extend_audio_method2_stretch_repeat audio sr td = Ok out /\
    len out = tl /\
    forall (j : nat) (d : A),
      Z.of_nat j < tl -> nth j out d = nth (j mod length stretched) stretched d.
Proof.
  intros Htd Hsr Htl Hs Hne.
  assert (Hpos : 0 <= tl) by (apply (target_length_nonneg td sr); [exact Htd|lia|exact Htl]).
  unfold extend_audio_method2_stretch_repeat. rewrite Htl. simpl bind. rewrite Hs. simpl bind.
  destruct (Z.ltb_spec (len stretched) tl) as [Hshort|Hlong].
  - destruct (tile_and_cut A stretched tl Hne Hpos) as [out [Hrun [Hlen Hnth]]].
    destruct (np_ceil_div tl (len stretched)) as [e|c]; [discriminate Hrun|].
    simpl bind in *. destruct (np_tile stretched c) as [e|tiled]; [discriminate Hrun|].
    simpl bind in *. exists out. split; [exact Hrun|]. split; assumption.
  - simpl bind. eexists. split; [reflexivity|].
    split; [apply len_py_slice_to; lia|].
    intros j d Hj. rewrite py_slice_to by assumption. rewrite nth_firstn.
    destruct (Nat.ltb_spec j (Z.to_nat tl)) as [_|Hc]; [|lia].
    rewrite Nat.mod_small by (unfold len in *; lia). reflexivity.
Qed.
End ScriptRepeat.

(** X1 run on four samples at 40 Hz for 0.3 s. *)
Lemma method1_reaches_target_length_witness :
  exists out, extend_audio_method1_repeat [1; 2; 3; 4]%float 40 0.3 = Ok out /\ len out = 12.
Proof.
  apply (method1_reaches_target_length (A := float) [1; 2; 3; 4]%float 40 0.3 12 2).
  - reflexivity.
  - lia.
  - intros E. discriminate E.
  - vm_compute. reflexivity.
  - vm_compute. reflexivity.
Defined.

(** X2 run at 40 Hz for 0.3 s. *)
Lemma repeat_of_empty_input_witness :
  extend_audio_method1_repeat (A := float) [] 40 0.3 = Raise ZeroDivisionError /\
  extend_to_target_length (A := float) (G := nat)
    {| target_duration := 0.3; sample_rate := 40; target_length := 12 |} [] "repeat"
    = Raise ZeroDivisionError.
Proof.
  destruct (repeat_of_empty_input (A := float) (G := nat)) as [Hscript [Hclass _]].
  split.
  - apply (Hscript 40 0.3%float 12). vm_compute. reflexivity.
  - apply Hclass. reflexivity.
Defined.

(** X3 run: five samples, a target of two. *)
Lemma method1_truncates_long_input_witness :
  extend_audio_method1_repeat [1; 2; 3; 4; 5]%float 1 2 = Ok [1; 2]%float.
Proof.
  apply (method1_truncates_long_input (A := float) [1; 2; 3; 4; 5]%float 1 2 2 0).
  - vm_compute. reflexivity.
  - vm_compute. split; discriminate.
  - intros E. discriminate E.
  - vm_compute. reflexivity.
Defined.

(** X4 run with the stand-in stretcher: three samples become four, the
    target is seven. *)
Lemma method2_repeats_the_stretched_signal_witness :
  exists out,
    extend_audio_method2_stretch_repeat (G := nat) [1; 2; 3]%float 7 1 = Ok out /\
    len out = 7 /\ nth 5 out 0%float = 1%float.
Proof.
  destruct (method2_repeats_the_stretched_signal (A := float) (G := nat)
              [1; 2; 3]%float [1; 1; 2; 3]%float 7 1 7)
    as [out [Hrun [Hlen Hnth]]].
  - reflexivity.
  - lia.
  - vm_compute. reflexivity.
  - vm_compute. reflexivity.
  - intros E. discriminate E.
  - exists out. split; [exact Hrun|]. split; [exact Hlen|].
    rewrite (Hnth 5%nat 0%float); reflexivity.
Defined.

(** ** The stretcher returns nothing; the input already fits *)

Section StretchEdges.
Context {A G : Type} `{Dtype A} `{Extern A G}.

(** X5.  When the stretcher returns the empty signal, every function that
    tiles the stretched signal divides by its length and raises
    [ZeroDivisionError]: the two pipelines for every target length, the
    stretch-and-repeat functions for a positive one. *)
Theorem empty_stretch_divides_by_zero (audio : list A) :
  (forall (sr : Z) (td noise_level : float) (tl : Z) (g g1 : G) (rate : float),
      py_int (td * py_float sr)%float = Ok tl ->
      draw_uniform (A := A) 0.75 0.85 g = (rate, g1) ->
      librosa_time_stretch audio rate = Ok [] ->
      extend_audio_method3_comprehensive audio sr td noise_level g
        = Raise ZeroDivisionError) /\
  (forall (self : AudioAugmentor) (noise_level : float) (g : G),
      librosa_time_stretch audio 0.8%float = Ok [] ->
      augment_audio self audio "comprehensive" noise_level g = Raise ZeroDivisionError) /\
  (forall (sr : Z) (td : float) (tl : Z),
      py_int (td * py_float sr)%float = Ok tl -> 0 < tl ->
      librosa_time_stretch audio 0.8%float = Ok [] ->
      extend_audio_method2_stretch_repeat audio sr td = Raise ZeroDivisionError) /\
  (forall self : AudioAugmentor,
      len audio < target_length self ->
      librosa_time_stretch audio 0.7%float = Ok [] ->
      extend_to_target_length self audio "stretch_and_repeat" = Raise ZeroDivisionError).
Proof.
  split; [|split; [|split]].
  - intros sr td noise_level tl g g1 rate Htl Hu Hs.
    unfold extend_audio_method3_comprehensive, bindR, lift, np_random_uniform.
    rewrite Htl. next. rewrite Hu, Hs. reflexivity.
  - intros self noise_level g Hs.
    unfold augment_audio, bindR, lift.
    change (String.eqb "comprehensive" "simple") with false.
    change (String.eqb "comprehensive" "stretch") with false.
    change (String.eqb "comprehensive" "comprehensive") with true.
    cbv beta iota. unfold time_stretch. rewrite Hs. reflexivity.
  - intros sr td tl Htl Hpos Hs.
    unfold extend_audio_method2_stretch_repeat. rewrite Htl. simpl bind.
    rewrite Hs. simpl bind.
    destruct (Z.ltb_spec (len (@nil A)) tl) as [_|Hc]; [reflexivity|].
    unfold len in Hc. simpl in Hc. lia.
  - intros self Hshort Hs.
    unfold extend_to_target_length.
    rewrite (extend_short_input self audio "stretch_and_repeat") by lia.
    simpl String.eqb. cbv iota. unfold time_stretch. rewrite Hs. simpl bind.
    pose proof (len_nonneg audio).
    destruct (Z.ltb_spec (len (@nil A)) (target_length self)) as [_|Hc]; [reflexivity|].
    unfold len in Hc. simpl in Hc. lia.
Qed.

(** X6.  An input of exactly [target_length] samples comes back from
    [extend_audio_method4_silence_padding] as it is, and the generator is
    left in the state it was in: both noise arrays are empty. *)
Theorem silence_padding_of_exact_fit (audio : list A) (sr : Z) (td : float) (g : G) :
  py_int (td * py_float sr)%float = Ok (len audio) ->
  extend_audio_method4_silence_padding audio sr td g = Ok (audio, g).
Proof.
  intros Htl.
  unfold extend_audio_method4_silence_padding, bindR, lift, ret.
  rewrite Htl. next. rewrite Z.sub_diag.
  change (0 / 2) with 0. change (0 - 0) with 0.
  unfold np_random_normal. change (0 <? 0) with false.
  replace (0.001 <? 0)%float with false by reflexivity.
  simpl. rewrite app_nil_r. reflexivity.
Qed.

(** X7.  For a non-empty input and any target length, the strategy [repeat]
    of the class returns the input repeated end to end with no fade:
    sample [j] of the result is sample [j mod len(audio)] of the input. *)
Theorem repeat_strategy_is_periodic (self : AudioAugmentor) (audio : list A) :
  0 <= target_length self -> audio <> [] ->
  exists out,
    extend_to_target_length self audio "repeat" = Ok out /\
    len out = target_length self /\
    forall (j : nat) (d : A),
      Z.of_nat j < target_length self -> nth j out d = nth (j mod length audio) audio d.
Proof.
  intros Htl Hne.
  destruct (Z.le_gt_cases (target_length self) (len audio)) as [Hlong|Hshort].
  - rewrite extend_long_input by assumption. eexists. split; [reflexivity|].
    split; [apply len_py_slice_to; assumption|].
    intros j d Hj. rewrite py_slice_to by assumption. rewrite nth_firstn.
    destruct (Nat.ltb_spec j (Z.to_nat (target_length self))) as [_|Hc]; [|lia].
    rewrite Nat.mod_small by (unfold len in *; lia). reflexivity.
  - unfold extend_to_target_length.
    rewrite (extend_short_input self audio "repeat") by lia. simpl String.eqb. cbv iota.
    apply tile_and_cut; assumption.
Qed.

(** X8.  The strategy [stretch_and_repeat] on an input shorter than the
    target stretches at the rate 0.7 and repeats what the stretcher
    returned: the result has [target_length] samples and sample [j] is
    sample [j mod len(stretched)] of the stretched signal. *)
Theorem stretch_and_repeat_is_periodic (self : AudioAugmentor)
    (audio stretched : list A) :
  len audio < target_length self ->
  librosa_time_stretch audio 0.7%float = Ok stretched -> stretched <> [] ->
  exists out,
    extend_to_target_length self audio "stretch_and_repeat" = Ok out /\
    len out = target_length self /\
    forall (j : nat) (d : A),
      Z.of_nat j < target_length self ->
      nth j out d = nth (j mod length stretched) stretched d.
Proof.
  intros Hshort Hs Hne. pose proof (len_nonneg audio) as Hn.
  unfold extend_to_target_length.
  rewrite (extend_short_input self audio "stretch_and_repeat") by lia.
  simpl String.eqb. cbv iota. unfold time_stretch. rewrite Hs. simpl bind.
  destruct (Z.ltb_spec (len stretched) (target_length self)) as [Hlt|Hge].
  - apply tile_and_cut; [assumption|lia].
  - eexists. split; [reflexivity|].
    split; [apply len_py_slice_to; lia|].
    intros j d Hj. rewrite py_slice_to by lia. rewrite nth_firstn.
    destruct (Nat.ltb_spec j (Z.to_nat (target_length self))) as [_|Hc]; [|lia].
    rewrite Nat.mod_small by (unfold len in *; lia). reflexivity.
Qed.
End StretchEdges.

(** X5 run on the class with a stretcher that returns nothing. *)
Lemma empty_stretch_divides_by_zero_witness :
  augment_audio
    (H0 := {| librosa_time_stretch := fun (_ : list float) (_ : float) => Ok [];
              draw_normal := counter_normal;
              draw_uniform := counter_uniform |})
    {| target_duration := 1; sample_rate := 7; target_length := 7 |}
    [1; 2; 3]%float "comprehensive" 0.005 0%nat = Raise ZeroDivisionError.
Proof.
  destruct (empty_stretch_divides_by_zero (A := float) (G := nat)
              (H0 := {| librosa_time_stretch := fun (_ : list float) (_ : float) => Ok [];
                        draw_normal := counter_normal;
                        draw_uniform := counter_uniform |})
              [1; 2; 3]%float) as [_ [Hclass _]].
  apply Hclass. reflexivity.
Defined.

(** X6 run: three samples at 3 Hz for one second. *)
Lemma silence_padding_of_exact_fit_witness :
  extend_audio_method4_silence_padding [1; 2; 3]%float 3 1 5%nat
    = Ok ([1; 2; 3]%float, 5%nat).
Proof.
  apply (silence_padding_of_exact_fit (A := float) (G := nat) [1; 2; 3]%float 3 1 5%nat).
  vm_compute. reflexivity.
Defined.

(** X7 run: three samples, a target of seven. *)
Lemma repeat_strategy_is_periodic_witness :
  exists out,
    extend_to_target_length (G := nat)
      {| target_duration := 1; sample_rate := 7; target_length := 7 |}
      [1; 2; 3]%float "repeat" = Ok out /\
    len out = 7 /\ nth 4 out 0%float = 2%float.
Proof.
  destruct (repeat_strategy_is_periodic (A := float) (G := nat)
              {| target_duration := 1; sample_rate := 7; target_length := 7 |}
              [1; 2; 3]%float) as [out [Hrun [Hlen Hnth]]].
  - simpl. lia.
  - intros E. discriminate E.
  - exists out. split; [exact Hrun|]. split; [exact Hlen|].
    rewrite (Hnth 4%nat 0%float); reflexivity.
Defined.

(** X8 run with the stand-in stretcher: three samples become four. *)
Lemma stretch_and_repeat_is_periodic_witness :
  exists out,
    extend_to_target_length (G := nat)
      {| target_duration := 1; sample_rate := 7; target_length := 7 |}
      [1; 2; 3]%float "stretch_and_repeat" = Ok out /\
    len out = 7 /\ nth 5 out 0%float = 1%float.
Proof.
  destruct (stretch_and_repeat_is_periodic (A := float) (G := nat)
              {| target_duration := 1; sample_rate := 7; target_length := 7 |}
              [1; 2; 3]%float [1; 1; 2; 3]%float) as [out [Hrun [Hlen Hnth]]].
  - reflexivity.
  - vm_compute. reflexivity.
  - intros E. discriminate E.
  - exists out. split; [exact Hrun|]. split; [exact Hlen|].
    rewrite (Hnth 5%nat 0%float); reflexivity.
Defined.

(** ** The pipeline of the class and its constructor *)

Section ClassEdges.
Context {A G : Type} `{Dtype A} `{Extern A G}.

(** X9.  With the method [simple], a positive target length and a non-empty
    input, [augment_audio] returns exactly [target_length] samples and draws
    no random number. *)
Theorem augment_simple_returns_target_length (self : AudioAugmentor) (audio : list A)
    (noise_level : float) (g : G) :
  0 < target_length self -> audio <> [] ->
  exists out,
    augment_audio self audio "simple" noise_level g = Ok (out, g) /\
    len out = target_length self.
Proof.
  intros Htl Hne.
  destruct (extend_repeat_length self audio ltac:(lia) Hne) as [ext [Hext Hlen]].
  unfold augment_audio, bindR, lift.
  change (String.eqb "simple" "simple") with true. cbv beta iota.
  rewrite Hext. next. rewrite Hlen, Z.gtb_ltb, Z.ltb_irrefl.
  destruct ext as [|x r]; [unfold len in Hlen; simpl in Hlen; lia|].
  simpl np_max. next.
  eexists. split; [reflexivity|].
  unfold np_scale, np_divide, len in *. rewrite !length_map. exact Hlen.
Qed.

(** X10.  With a target length of zero (a duration shorter than one sample)
    the methods [simple] and [stretch] of [augment_audio] cut the input to
    nothing and the final normalization raises [ValueError]: [np.max] has no
    value on an empty array. *)
Theorem augment_with_empty_target_fails (self : AudioAugmentor) (audio : list A)
    (method : string) (noise_level : float) (g : G) :
  target_length self = 0 -> method = "simple"%string \/ method = "stretch"%string ->
  augment_audio self audio method noise_level g
    = Raise (ValueError
               "zero-size array to reduction operation maximum which has no identity").
Proof.
  intros Htl Hm. pose proof (len_nonneg audio) as Hn.
  assert (Hcut : forall m, extend_to_target_length self audio m = Ok []).
  { intros m. rewrite extend_long_input by lia. rewrite Htl.
    rewrite py_slice_to by lia. reflexivity. }
  unfold augment_audio, bindR, lift.
  destruct Hm as [-> | ->].
  - change (String.eqb "simple" "simple") with true. cbv beta iota.
    rewrite Hcut. next. rewrite Htl. reflexivity.
  - change (String.eqb "stretch" "simple") with false.
    change (String.eqb "stretch" "stretch") with true. cbv beta iota.
    rewrite Hcut. next. rewrite Htl. reflexivity.
Qed.
End ClassEdges.

(** X11.  A positive duration and a sample rate that is not negative never
    give a negative target length: when the constructor succeeds,
    [target_length] is zero or more. *)
Theorem init_target_length_not_negative (td : float) (sr : Z) (self : AudioAugmentor) :
  (0 <? td)%float = true -> 0 <= sr < 2 ^ 63 ->
  init td sr = Ok self -> 0 <= target_length self.
Proof.
  intros Htd Hsr Hinit. unfold init in Hinit.
  destruct (py_int (td * py_float sr)%float) as [e|tl] eqn:Htl; simpl in Hinit.
  - discriminate Hinit.
  - inversion Hinit. simpl. apply (target_length_nonneg td sr); assumption.
Qed.

(** X9 run: one sample, a target of two. *)
Lemma augment_simple_returns_target_length_witness :
  exists out,
    augment_audio {| target_duration := 1; sample_rate := 2; target_length := 2 |}
      [0.5%float] "simple" 0.005 3%nat = Ok (out, 3%nat) /\
    len out = 2.
Proof.
  apply (augment_simple_returns_target_length (A := float) (G := nat)
           {| target_duration := 1; sample_rate := 2; target_length := 2 |}
           [0.5%float] 0.005%float 3%nat).
  - reflexivity.
  - intros E. discriminate E.
Defined.

(** X10 run: a duration of 0.00001 s at 22050 Hz is a target of no sample. *)
Lemma augment_with_empty_target_fails_witness :
  exists self : AudioAugmentor,
    init 0.00001 22050 = Ok self /\
    augment_audio self [0.5; 0.25]%float "simple" 0.005 0%nat
      = Raise (ValueError
                 "zero-size array to reduction operation maximum which has no identity").
Proof.
  exists {| target_duration := 0.00001; sample_rate := 22050; target_length := 0 |}.
  split; [vm_compute; reflexivity|].
  apply (augment_with_empty_target_fails (A := float) (G := nat)).
  - reflexivity.
  - left. reflexivity.
Defined.

(** X11 run with the defaults of the constructor. *)
Lemma init_target_length_not_negative_witness :
  0 <= target_length {| target_duration := 5; sample_rate := 22050; target_length := 110250 |}.
Proof.
  apply (init_target_length_not_negative 5 22050).
  - reflexivity.
  - lia.
  - vm_compute. reflexivity.
Defined.

(** ** Peak normalization in binary64: [nan] and silence *)

Lemma Prim2SF_inj (x y : float) : Prim2SF x = Prim2SF y -> x = y.
Proof.
  intros E. rewrite <- (SF2Prim_Prim2SF x), <- (SF2Prim_Prim2SF y), E. reflexivity.
Qed.

Lemma is_nan_eq (x : float) : is_nan x = true -> x = nan.
Proof.
  intros Hx. apply Prim2SF_inj. unfold Prim2SF at 1. rewrite Hx. reflexivity.
Qed.

Lemma leb_nan_l (a : float) : (nan <=? a)%float = false.
Proof.
  rewrite leb_spec. change (Prim2SF nan) with S754_nan. reflexivity.
Qed.

Lemma np_maximum_nan_r (a : float) : np_maximum a nan = nan.
Proof.
  unfold np_maximum. simpl geb. simpl isnan. rewrite leb_nan_l. simpl orb.
  destruct (is_nan a) eqn:Ha; [apply is_nan_eq; exact Ha|reflexivity].
Qed.

Lemma np_maximum_nan_l (b : float) : np_maximum nan b = nan.
Proof.
  unfold np_maximum. simpl isnan. change (is_nan nan) with true.
  rewrite orb_true_r. reflexivity.
Qed.

Lemma fold_maximum_from_nan (r : list float) : fold_left np_maximum r nan = nan.
Proof.
  induction r as [|b r IH]; simpl; [reflexivity|].
  rewrite np_maximum_nan_l. exact IH.
Qed.

Lemma fold_maximum_meets_nan (r : list float) (a : float) :
  In nan r -> fold_left np_maximum r a = nan.
Proof.
  revert a. induction r as [|b r IH]; intros a Hin; simpl in *; [contradiction|].
  destruct Hin as [-> | Hin].
  - rewrite np_maximum_nan_r. apply fold_maximum_from_nan.
  - apply IH. exact Hin.
Qed.

Lemma np_max_with_nan (l : list float) : In nan l -> np_max l = Ok nan.
Proof.
  destruct l as [|x r]; intros Hin; simpl in *; [contradiction|].
  f_equal. destruct Hin as [-> | Hin].
  - apply fold_maximum_from_nan.
  - apply fold_maximum_meets_nan. exact Hin.
Qed.

(** X12.  A signal that holds a [nan] comes back from [normalize_audio]
    unchanged: the peak is [nan], the test [max_val > 0] is false and
    nothing is scaled. *)
Theorem normalize_audio_passes_nan (audio : list float) (target_peak : float) :
  In nan audio -> normalize_audio audio target_peak = Ok audio.
Proof.
  intros Hin. unfold normalize_audio.
  rewrite np_max_with_nan.
  - reflexivity.
  - unfold np_abs. change nan with (absv nan). apply in_map. exact Hin.
Qed.

Lemma np_abs_silence (audio : list float) :
  Forall silent_sample audio -> np_abs audio = repeat 0%float (length audio).
Proof.
  induction 1 as [|x r Hx Hr IH]; [reflexivity|].
  unfold np_abs in *. cbn [map length repeat]. rewrite IH. f_equal.
  destruct Hx as [-> | ->]; reflexivity.
Qed.

(** X13.  A non-empty signal of zeros, of either sign, comes back from
    [normalize_audio] unchanged: the guard [max_val > 0] keeps the division
    by the peak from running. *)
Theorem normalize_audio_keeps_zeros (audio : list float) (target_peak : float) :
  Forall silent_sample audio -> audio <> [] ->
  normalize_audio audio target_peak = Ok audio.
Proof.
  intros Hsilent Hne. unfold normalize_audio.
  rewrite np_abs_silence by assumption.
  destruct audio as [|x r]; [contradiction|]. simpl length. simpl repeat.
  simpl np_max. rewrite fold_maximum_zeros. reflexivity.
Qed.

(** X12 run on a signal with a [nan] in the middle. *)
Lemma normalize_audio_passes_nan_witness :
  normalize_audio [0.5; nan; -2]%float 0.95 = Ok [0.5; nan; -2]%float.
Proof.
  apply (normalize_audio_passes_nan [0.5; nan; -2]%float 0.95).
  right. left. reflexivity.
Defined.

(** X13 run on a positive and a negative zero. *)
Lemma normalize_audio_keeps_zeros_witness :
  normalize_audio [0; -0]%float 0.95 = Ok [0; -0]%float.
Proof.
  apply (normalize_audio_keeps_zeros [0; -0]%float 0.95).
  - apply Forall_cons; [left; reflexivity|].
    apply Forall_cons; [right; reflexivity|]. apply Forall_nil.
  - intros E. discriminate E.
Defined.

(** ** Peak normalization without rounding: the peak and the bound *)

Section ExactPeak.
Local Open Scope Qc_scope.

Lemma np_maximum_upper (a b : Qc) : a <= np_maximum a b /\ b <= np_maximum a b.
Proof.
  rewrite np_maximum_exact. destruct (geb a b) eqn:E.
  - apply geb_exact in E. split; [apply Qcle_refl|exact E].
  - split; [|apply Qcle_refl].
    apply Qclt_le_weak, Qcnot_le_lt. intros Hle. apply geb_exact in Hle. congruence.
Qed.

Lemma fold_maximum_upper (r : list Qc) (a : Qc) :
  a <= fold_left np_maximum r a /\
  forall x, In x r -> x <= fold_left np_maximum r a.
Proof.
  revert a. induction r as [|b r IH]; intros a; simpl.
  - split; [apply Qcle_refl|intros x []].
  - destruct (IH (np_maximum a b)) as [Hacc Hall].
    destruct (np_maximum_upper a b) as [Ha Hb].
    split; [eapply Qcle_trans; eassumption|].
    intros x [-> | Hin]; [eapply Qcle_trans; eassumption|apply Hall; exact Hin].
Qed.

Lemma np_max_upper (l : list Qc) (m x : Qc) :
  np_max l = Ok m -> In x l -> x <= m.
Proof.
  destruct l as [|a r]; simpl; intros Hm Hin; [contradiction|].
  inversion Hm. destruct (fold_maximum_upper r a) as [Ha Hall].
  destruct Hin as [-> | Hin]; [exact Ha|apply Hall; exact Hin].
Qed.

(** X14.  In sample arithmetic without rounding, for a signal with a
    sample that is not zero and a target peak that is not negative:
    [normalize_audio] returns a signal of the same length whose peak is
    exactly the target peak, so no sample exceeds it in absolute value. *)
Theorem normalized_peak_is_target (audio : list Qc) (target_peak : float) (x : Qc) :
  (0 <= Q_of_float target_peak)%Q -> In x audio -> x <> 0 ->
  exists out,
    normalize_audio audio target_peak = Ok out /\
    length out = length audio /\
    np_max (np_abs out) = Ok (of_float target_peak) /\
    Forall (fun y => Qcabs y <= of_float target_peak) out.
Proof.
  intros Hc Hin Hx.
  destruct (np_max (np_abs audio)) as [e|m] eqn:Hm.
  { destruct audio; [contradiction|discriminate Hm]. }
  assert (Hxm : Qcabs x <= m).
  { apply (np_max_upper (np_abs audio)); [exact Hm|]. apply in_map. exact Hin. }
  assert (Hpos : 0 < m).
  { apply Qclt_le_trans with (Qcabs x); [|exact Hxm].
    destruct (Qcle_lt_or_eq _ _ (Qcabs_nonneg x)) as [Hlt|Heq]; [exact Hlt|].
    exfalso. apply Hx. apply Qcabs_null. symmetry. exact Heq. }
  destruct (normalize_audio_peak_exact audio target_peak m Hc Hm Hpos)
    as [out [Hrun [Hout Hpeak]]].
  exists out. split; [exact Hrun|]. split; [subst out; apply length_map|].
  split; [exact Hpeak|].
  apply Forall_forall. intros y Hy.
  apply (np_max_upper (np_abs out)); [exact Hpeak|]. apply in_map. exact Hy.
Qed.
End ExactPeak.

(** X14 run with the default target peak on the signal 1, -2, 1/2. *)
Lemma normalized_peak_is_target_witness :
  exists out,
    normalize_audio (A := Qc) (Q2Qc 1 :: Q2Qc (-2) :: Q2Qc (1 # 2) :: nil)
      default_target_peak = Ok out /\
    np_max (np_abs out) = Ok (of_float default_target_peak).
Proof.
  destruct (normalized_peak_is_target
              (Q2Qc 1 :: Q2Qc (-2) :: Q2Qc (1 # 2) :: nil) default_target_peak (Q2Qc 1))
    as [out [Hrun [_ [Hpeak _]]]].
  - vm_compute. discriminate.
  - left. reflexivity.
  - intros E. discriminate E.
  - exists out. split; assumption.
Defined.

(** ** The reverb at the ends of its range *)

Lemma add_mul_zero (x : float) : finite_sample x -> (x + x * 0)%float = x.
Proof.
  unfold finite_sample. intros Hx. apply Prim2SF_inj.
  rewrite add_spec, mul_spec. change (Prim2SF 0) with (S754_zero false).
  destruct (Prim2SF x) as [s|s| |s m e]; try contradiction.
  - destruct s; reflexivity.
  - reflexivity.
Qed.

(** [int] of a product with zero is zero when it is defined. *)
Lemma py_int_mul_zero (x : float) (d : Z) : py_int (x * 0)%float = Ok d -> d = 0.
Proof.
  unfold py_int. rewrite mul_spec. change (Prim2SF 0) with (S754_zero false).
  destruct (Prim2SF x) as [s|s| |s m e]; simpl; intros E;
    try discriminate E; inversion E; reflexivity.
Qed.

(** X15.  With a room size of zero the reverb gives back a signal of finite
    samples as it is: the delay is zero and every sample [x] becomes
    [x + x * 0.0]. *)
Theorem reverb_of_no_room (audio : list float) (sr d : Z) :
  Forall finite_sample audio ->
  py_int (py_float sr * 0.05 * 0)%float = Ok d ->
  simple_reverb audio sr 0 = Ok audio.
Proof.
  intros Hfin Hd.
  assert (Hzero : d = 0) by (apply (py_int_mul_zero _ d Hd)). subst d.
  destruct (simple_reverb_spec audio sr 0%float 0 Hd ltac:(lia)) as [out [Hrun [Hlen Hnth]]].
  rewrite Hrun. f_equal.
  apply (nth_ext out audio 0%float 0%float Hlen).
  intros i Hi. rewrite Hnth by lia.
  destruct (Z.ltb_spec (Z.of_nat i) 0) as [Hc|_]; [lia|].
  simpl Z.to_nat. rewrite Nat.sub_0_r.
  change (of_float (0.3 * 0)%float) with 0%float.
  apply add_mul_zero.
  rewrite Forall_forall in Hfin. apply Hfin. apply nth_In. lia.
Qed.

Section ReverbEdges.
Context {A : Type} `{Dtype A}.

(** X16.  A room size that makes the delay negative is refused for every
    input of two samples or more: the buffer [np.zeros(len(audio) + delay)]
    has a negative size or is too short to take the input, and [ValueError]
    is raised. *)
Theorem reverb_rejects_negative_delay (audio : list A) (sr : Z) (room_size : float)
    (d : Z) :
  py_int (py_float sr * 0.05 * room_size)%float = Ok d -> d < 0 -> 2 <= len audio ->
  exists msg, simple_reverb audio sr room_size = Raise (ValueError msg).
Proof.
  intros Hd Hneg Hlen. unfold simple_reverb. rewrite Hd. simpl bind.
  unfold np_zeros. destruct (Z.ltb_spec (len audio + d) 0) as [Hc|Hfit].
  - eexists. reflexivity.
  - simpl bind. unfold np_islice. simpl slice_lo. simpl slice_hi.
    assert (Lz : len (repeat (@zero A _) (Z.to_nat (len audio + d))) = len audio + d)
      by (apply len_repeat; assumption).
    rewrite Lz. unfold clip_index.
    destruct (Z.ltb_spec (len audio) 0) as [Hc|_]; [lia|].
    rewrite Z.min_r by lia. rewrite Z.sub_0_r.
    destruct (Nat.eqb_spec (length audio) (Z.to_nat (len audio + d))) as [Hc|_];
      [unfold len in *; lia|].
    destruct audio as [|a [|b r]]; try (unfold len in Hlen; simpl in Hlen; lia).
    eexists. reflexivity.
Qed.
End ReverbEdges.

(** X15 run at 22050 Hz. *)
Lemma reverb_of_no_room_witness :
  simple_reverb [0.5; -0.25; 0]%float 22050 0 = Ok [0.5; -0.25; 0]%float.
Proof.
  apply (reverb_of_no_room [0.5; -0.25; 0]%float 22050 0).
  - repeat (apply Forall_cons; [exact I|]). apply Forall_nil.
  - vm_compute. reflexivity.
Defined.

(** X16 run at 22050 Hz with a room size of -0.3: the delay is -330. *)
Lemma reverb_rejects_negative_delay_witness :
  exists msg, simple_reverb [1; 2; 3]%float 22050 (-0.3) = Raise (ValueError msg).
Proof.
  apply (reverb_rejects_negative_delay (A := float) [1; 2; 3]%float 22050 (-0.3) (-330)).
  - vm_compute. reflexivity.
  - lia.
  - vm_compute. discriminate.
Defined.

(** ** [add_background_noise] *)

Section BackgroundNoise.
Context {A G : Type} `{Dtype A} `{Extern A G}.

(** The noise made as long as the signal: repeated whole when it is
    shorter, then cut. *)
Lemma noise_fitted (audio noise_audio : list A) :
  noise_audio <> [] ->
  exists fitted,
    (if len noise_audio <? len audio then
       repeats <- np_ceil_div (len audio) (len noise_audio) ;;
       np_tile noise_audio repeats
     else Ok noise_audio) = Ok fitted /\
    length (py_slice fitted None (Some (len audio))) = length audio /\
    forall (i : nat) (d : A), (i < length audio)%nat ->
      nth i (py_slice fitted None (Some (len audio))) d
        = nth (i mod length noise_audio) noise_audio d.
Proof.
  intros Hne. pose proof (len_nonneg audio) as Hn.
  assert (HL : 0 < len noise_audio) by (apply len_pos; assumption).
  destruct (Z.ltb_spec (len noise_audio) (len audio)) as [Hshort|Hlong].
  - destruct (np_ceil_div_spec (len audio) (len noise_audio) HL) as [c [Ec [Hc1 Hc2]]].
    assert (Hc : 0 <= c) by nia.
    rewrite Ec. simpl bind. rewrite np_tile_ok by assumption.
    eexists. split; [reflexivity|].
    assert (Lt : len (concat (repeat noise_audio (Z.to_nat c))) = c * len noise_audio)
      by (apply len_concat_repeat; assumption).
    rewrite py_slice_to by assumption. split.
    + rewrite length_firstn. unfold len in *. lia.
    + intros i d Hi. rewrite nth_firstn.
      destruct (Nat.ltb_spec i (Z.to_nat (len audio))) as [_|Hc']; [|unfold len in Hc'; lia].
      apply nth_concat_repeat. unfold len in *. nia.
  - exists noise_audio. split; [reflexivity|].
    rewrite py_slice_to by assumption. split.
    + rewrite length_firstn. unfold len in *. lia.
    + intros i d Hi. rewrite nth_firstn.
      destruct (Nat.ltb_spec i (Z.to_nat (len audio))) as [_|Hc']; [|unfold len in Hc'; lia].
      rewrite Nat.mod_small by (unfold len in *; lia). reflexivity.
Qed.

(** X17.  With a noise signal that is not empty, [add_background_noise]
    returns as many samples as the input has, and sample [i] is the input
    sample plus the noise sample [i mod len(noise_audio)] times the noise
    level: a noise signal that is too short wraps around. *)
Theorem add_background_noise_wraps (self : AudioAugmentor) (audio noise_audio : list A)
    (noise_level : float) :
  noise_audio <> [] ->
  exists out,
    add_background_noise self audio noise_audio noise_level = Ok out /\
    length out = length audio /\
    forall (i : nat) (d : A), (i < length audio)%nat ->
      nth i out d
        = add (nth i audio d)
              (mul (nth (i mod length noise_audio) noise_audio d) (of_float noise_level)).
Proof.
  intros Hne.
  destruct (noise_fitted audio noise_audio Hne) as [fitted [Hfit [Hlen Hnth]]].
  unfold add_background_noise. rewrite Hfit. simpl bind.
  set (cut := py_slice fitted None (Some (len audio))) in *.
  assert (Hscaled : length (np_scale cut (of_float noise_level)) = length audio).
  { unfold np_scale. rewrite length_map. exact Hlen. }
  unfold np_add_broadcast. rewrite Hscaled, Nat.eqb_refl.
  eexists. split; [reflexivity|]. split.
  - rewrite length_map2, Hscaled. lia.
  - intros i d Hi.
    rewrite (nth_map2 add audio _ i d d) by lia. f_equal.
    unfold np_scale.
    rewrite (nth_indep _ d (mul d (of_float noise_level))) by (rewrite length_map; lia).
    rewrite (map_nth (fun x => mul x (of_float noise_level))).
    f_equal. apply Hnth. exact Hi.
Qed.

(** X18.  An empty noise signal makes [add_background_noise] divide the
    length of the input by zero: a non-empty input raises
    [ZeroDivisionError]. *)
Theorem add_background_noise_needs_noise (self : AudioAugmentor) (audio : list A)
    (noise_level : float) :
  audio <> [] ->
  add_background_noise self audio [] noise_level = Raise ZeroDivisionError.
Proof.
  intros Hne. pose proof (len_pos audio Hne) as HL.
  unfold add_background_noise.
  destruct (Z.ltb_spec (len (@nil A)) (len audio)) as [_|Hc]; [reflexivity|].
  unfold len in *. simpl in Hc. lia.
Qed.
End BackgroundNoise.

(** X17 run: five samples, a noise of two samples at level 0.5. *)
Lemma add_background_noise_wraps_witness :
  exists out,
    add_background_noise
      {| target_duration := 5; sample_rate := 22050; target_length := 110250 |}
      [1; 2; 3; 4; 5]%float [0.5; -0.5]%float 0.5 = Ok out /\
    length out = 5%nat /\ nth 4 out 0%float = (5 + 0.5 * 0.5)%float.
Proof.
  destruct (add_background_noise_wraps (A := float)
              {| target_duration := 5; sample_rate := 22050; target_length := 110250 |}
              [1; 2; 3; 4; 5]%float [0.5; -0.5]%float 0.5)
    as [out [Hrun [Hlen Hnth]]].
  - intros E. discriminate E.
  - exists out. split; [exact Hrun|]. split; [exact Hlen|].
    rewrite (Hnth 4%nat 0%float); [reflexivity|simpl; lia].
Defined.

(** X18 run. *)
Lemma add_background_noise_needs_noise_witness :
  add_background_noise
    {| target_duration := 5; sample_rate := 22050; target_length := 110250 |}
    [1; 2]%float [] 0.1 = Raise ZeroDivisionError.
Proof.
  apply (add_background_noise_needs_noise (A := float)
           {| target_duration := 5; sample_rate := 22050; target_length := 110250 |}
           [1; 2]%float 0.1).
  intros E. discriminate E.
Defined.

(** ** [repeat_and_fade] *)

Lemma clip_index_from_end (n i : Z) : i < 0 -> 0 <= i + n -> clip_index n i = i + n.
Proof. intros Hi Hn. unfold clip_index. destruct (Z.ltb_spec i 0); lia. Qed.

Lemma length_ramp_up (num : Z) : 0 <= num -> length (ramp_up num) = Z.to_nat num.
Proof. intros Hn. pose proof (len_ramp_up num Hn) as L. unfold len in L. lia. Qed.

Lemma length_ramp_down (num : Z) : 0 <= num -> length (ramp_down num) = Z.to_nat num.
Proof. intros Hn. pose proof (len_ramp_down num Hn) as L. unfold len in L. lia. Qed.

Section RepeatAndFade.
Context {A G : Type} `{Dtype A} `{Extern A G}.

(** X19.  When the fade length [F = int(0.1 * sample_rate)] is at least one
    and the repeated signal is longer than two fade lengths,
    [repeat_and_fade] returns [num_repeats] copies of the input with the
    first [F] samples multiplied by the rising ramp and the last [F] samples
    by the falling ramp; the samples between are those of the copies.  The
    seams between the copies get no fade. *)
Theorem repeat_and_fade_fades_both_ends (self : AudioAugmentor) (audio : list A)
    (num_repeats F : Z) :
  0 <= num_repeats ->
  py_int (0.1 * py_float (sample_rate self))%float = Ok F ->
  1 <= F ->
  2 * F < num_repeats * len audio ->
  exists out,
    repeat_and_fade self audio num_repeats = Ok out /\
    len out = num_repeats * len audio /\
    forall (i : nat) (d : A), (i < length out)%nat ->
      nth i out d =
        if Z.of_nat i <? F then
          mul (nth (i mod length audio) audio d) (of_float (nth i (ramp_up F) 0%float))
        else if num_repeats * len audio - F <=? Z.of_nat i then
          mul (nth (i mod length audio) audio d)
              (of_float (nth (i - Z.to_nat (num_repeats * len audio - F)) (ramp_down F)
                             0%float))
        else nth (i mod length audio) audio d.
Proof.
  intros Hr HF HF1 Hlong.
  unfold repeat_and_fade.
  rewrite np_tile_ok by assumption. simpl bind.
  rewrite HF. simpl bind.
  rewrite ramp_up_linspace, ramp_down_linspace by lia. simpl bind.
  set (tiled := concat (repeat audio (Z.to_nat num_repeats))).
  assert (Ln : len tiled = num_repeats * len audio)
    by (apply len_concat_repeat; assumption).
  destruct (Z.gtb_spec (len tiled) (F * 2)) as [_|Hc]; [|lia].
  (* the head *)
  pose proof (np_islice_spec mul tiled None (Some F) (map of_float (ramp_up F))) as S1.
  cbv zeta in S1. unfold slice_lo, slice_hi in S1.
  rewrite clip_index_id in S1 by lia.
  destruct S1 as [out1 [E1 [L1 N1]]]; try lia.
  { unfold len. rewrite length_map, length_ramp_up by lia. lia. }
  rewrite E1. simpl bind.
  (* the tail *)
  assert (Ln1 : len out1 = num_repeats * len audio) by (unfold len in *; lia).
  pose proof (np_islice_spec mul out1 (Some (- F)) None (map of_float (ramp_down F))) as S2.
  cbv zeta in S2. unfold slice_lo, slice_hi in S2.
  rewrite clip_index_from_end in S2 by lia.
  destruct S2 as [out2 [E2 [L2 N2]]]; try lia.
  { unfold len. rewrite length_map, length_ramp_down by lia. unfold len in Ln1. lia. }
  exists out2. split; [exact E2|]. split; [unfold len in *; lia|].
  intros i d Hi.
  assert (Hi1 : (i < length out1)%nat) by lia.
  assert (Hit : (i < length tiled)%nat) by lia.
  assert (Htile : nth i tiled d = nth (i mod length audio) audio d).
  { apply nth_concat_repeat. unfold len in *. lia. }
  rewrite (N2 i d (of_float 0%float) Hi1), (N1 i d (of_float 0%float) Hit), Htile.
  rewrite Ln1. replace (- F + num_repeats * len audio) with (num_repeats * len audio - F) by lia.
  destruct (Z.ltb_spec (Z.of_nat i) F) as [Hhead|Hnohead].
  - destruct (Z.leb_spec (num_repeats * len audio - F) (Z.of_nat i)) as [Hc|_]; [lia|].
    simpl. destruct (Z.leb_spec 0 (Z.of_nat i)) as [_|Hc]; [|lia]. simpl.
    rewrite Nat.sub_0_r. f_equal.
    apply (map_nth of_float).
  - replace ((0 <=? Z.of_nat i) && false) with false by (rewrite andb_false_r; reflexivity).
    destruct (Z.leb_spec (num_repeats * len audio - F) (Z.of_nat i)) as [Htail|Hmid].
    + destruct (Z.ltb_spec (Z.of_nat i) (num_repeats * len audio)) as [_|Hc];
        [|unfold len in *; lia].
      simpl. f_equal. apply (map_nth of_float).
    + simpl. reflexivity.
Qed.

(** X20.  A repeated signal of at most two fade lengths is returned as the
    plain copies: no sample is faded. *)
Theorem repeat_and_fade_short_is_plain (self : AudioAugmentor) (audio : list A)
    (num_repeats F : Z) :
  0 <= num_repeats ->
  py_int (0.1 * py_float (sample_rate self))%float = Ok F ->
  num_repeats * len audio <= 2 * F ->
  repeat_and_fade self audio num_repeats
    = Ok (concat (repeat audio (Z.to_nat num_repeats))).
Proof.
  intros Hr HF Hshort.
  assert (HF0 : 0 <= F) by (pose proof (len_nonneg audio); nia).
  unfold repeat_and_fade.
  rewrite np_tile_ok by assumption. simpl bind.
  rewrite HF. simpl bind.
  rewrite ramp_up_linspace, ramp_down_linspace by assumption. simpl bind.
  rewrite len_concat_repeat by assumption.
  destruct (Z.gtb_spec (num_repeats * len audio) (F * 2)) as [Hc|_]; [lia|reflexivity].
Qed.

(** X21.  With a fade length of zero (a sample rate below ten) every
    non-empty repetition fails: the slice [repeated[-0:]] is the whole
    signal, and the empty ramp cannot be broadcast over it. *)
Theorem repeat_and_fade_needs_a_fade_length (self : AudioAugmentor) (audio : list A)
    (num_repeats : Z) :
  py_int (0.1 * py_float (sample_rate self))%float = Ok 0 ->
  0 < num_repeats -> audio <> [] ->
  exists msg, repeat_and_fade self audio num_repeats = Raise (ValueError msg).
Proof.
  intros HF Hr Hne. pose proof (len_pos audio Hne) as HL.
  unfold repeat_and_fade.
  rewrite np_tile_ok by lia. simpl bind.
  rewrite HF. simpl bind.
  set (tiled := concat (repeat audio (Z.to_nat num_repeats))).
  assert (Ln : len tiled = num_repeats * len audio)
    by (apply len_concat_repeat; lia).
  destruct (Z.gtb_spec (len tiled) 0) as [_|Hc]; [|nia].
  pose proof (np_islice_spec mul tiled None (Some 0) (@nil A)) as S1.
  cbv zeta in S1. unfold slice_lo, slice_hi in S1.
  rewrite clip_index_id in S1 by nia.
  destruct S1 as [out1 [E1 [L1 _]]]; try nia; [reflexivity|].
  rewrite E1. simpl bind.
  unfold np_islice, slice_lo, slice_hi.
  rewrite clip_index_id by (unfold len; lia).
  destruct (Nat.eqb_spec (length (@nil A)) (Z.to_nat (len out1 - 0))) as [Hc|_].
  - simpl in Hc. unfold len in *. nia.
  - eexists. reflexivity.
Qed.
End RepeatAndFade.

(** X19 run: three samples four times at a sample rate of 40, fade length 4. *)
Lemma repeat_and_fade_fades_both_ends_witness :
  exists out,
    repeat_and_fade
      {| target_duration := 5; sample_rate := 40; target_length := 200 |}
      [1; 2; 3]%float 4 = Ok out /\
    len out = 12.
Proof.
  destruct (repeat_and_fade_fades_both_ends (A := float)
              {| target_duration := 5; sample_rate := 40; target_length := 200 |}
              [1; 2; 3]%float 4 4)
    as [out [Hrun [Hlen _]]].
  - lia.
  - reflexivity.
  - lia.
  - reflexivity.
  - exists out. split; [exact Hrun|exact Hlen].
Defined.

(** X20 run: at 22050 Hz a signal of 4000 samples is left as it is. *)
Lemma repeat_and_fade_short_is_plain_witness :
  repeat_and_fade
    {| target_duration := 5; sample_rate := 22050; target_length := 110250 |}
    [1; 2; 3]%float 2 = Ok [1; 2; 3; 1; 2; 3]%float.
Proof.
  apply (repeat_and_fade_short_is_plain (A := float)
           {| target_duration := 5; sample_rate := 22050; target_length := 110250 |}
           [1; 2; 3]%float 2 2205).
  - lia.
  - reflexivity.
  - vm_compute. discriminate.
Defined.

(** X21 run: a sample rate of 8. *)
Lemma repeat_and_fade_needs_a_fade_length_witness :
  exists msg,
    repeat_and_fade
      {| target_duration := 5; sample_rate := 8; target_length := 40 |}
      [1; 2; 3]%float 3 = Raise (ValueError msg).
Proof.
  apply (repeat_and_fade_needs_a_fade_length (A := float)
           {| target_duration := 5; sample_rate := 8; target_length := 40 |}
           [1; 2; 3]%float 3).
  - reflexivity.
  - lia.
  - intros E. discriminate E.
Defined.

(** ** [pad_with_silence] *)

Lemma duration_samples_nonneg (seconds : float) (sr n : Z) :
  (0 <=? seconds)%float = true -> 0 <= sr < 2 ^ 63 ->
  py_int (seconds * py_float sr)%float = Ok n -> 0 <= n.
Proof.
  intros Hs Hsr. apply py_int_nonneg, mul_nonneg.
  - apply not_negative_nonneg. exact Hs.
  - apply py_float_nonneg. exact Hsr.
Qed.

Section PadWithSilence.
Context {A G : Type} `{Dtype A} `{Extern A G}.

(** X22.  With durations that are not negative, [pad_with_silence] puts
    [int(silence_before * sample_rate)] zeros before the input and
    [int(silence_after * sample_rate)] zeros after it: the result has the
    three lengths added, is zero outside the input, and cutting the padding
    off again gives the input back. *)
Theorem pad_with_silence_round_trip (self : AudioAugmentor) (audio : list A)
    (silence_before silence_after : float) (b a : Z) :
  0 <= sample_rate self < 2 ^ 63 ->
  (0 <=? silence_before)%float = true ->
  (0 <=? silence_after)%float = true ->
  py_int (silence_before * py_float (sample_rate self))%float = Ok b ->
  py_int (silence_after * py_float (sample_rate self))%float = Ok a ->
  exists out,
    pad_with_silence self audio silence_before silence_after = Ok out /\
    len out = b + len audio + a /\
    py_slice out (Some b) (Some (b + len audio)) = audio /\
    forall (i : nat) (d : A), (i < length out)%nat ->
      Z.of_nat i < b \/ b + len audio <= Z.of_nat i -> nth i out d = zero.
Proof.
  intros Hsr Hsb Hsa Hb Ha.
  pose proof (duration_samples_nonneg _ _ _ Hsb Hsr Hb) as Hb0.
  pose proof (duration_samples_nonneg _ _ _ Hsa Hsr Ha) as Ha0.
  unfold pad_with_silence. rewrite Hb. simpl bind. rewrite Ha. simpl bind.
  unfold np_zeros.
  destruct (Z.ltb_spec b 0) as [Hc|_]; [lia|]. simpl bind.
  destruct (Z.ltb_spec a 0) as [Hc|_]; [lia|]. simpl bind.
  eexists. split; [reflexivity|].
  assert (Lb : length (repeat zero (Z.to_nat b)) = Z.to_nat b) by apply repeat_length.
  assert (La : length (repeat zero (Z.to_nat a)) = Z.to_nat a) by apply repeat_length.
  assert (Lout : len (repeat zero (Z.to_nat b) ++ audio ++ repeat zero (Z.to_nat a))
                 = b + len audio + a).
  { rewrite !len_app, !len_repeat by assumption. lia. }
  split; [exact Lout|]. split.
  - pose proof (len_nonneg audio) as Hn.
    unfold py_slice, slice_lo, slice_hi. rewrite Lout.
    rewrite !clip_index_id by lia.
    replace (b + len audio - b) with (len audio) by lia.
    rewrite skipn_app, Lb, Nat.sub_diag.
    rewrite skipn_all2 by lia. simpl.
    rewrite firstn_app. unfold len. rewrite Nat2Z.id, Nat.sub_diag, firstn_all.
    simpl. apply app_nil_r.
  - intros i d Hi [Hbefore|Hafter].
    + rewrite app_nth1 by lia. apply nth_repeat_zero; lia.
    + unfold len in *. rewrite !length_app, La, Lb in *.
      rewrite app_nth2 by lia. rewrite Lb.
      rewrite app_nth2 by lia.
      apply nth_repeat_zero. lia.
Qed.

(** X23.  A duration whose sample count is negative makes [np.zeros] fail:
    [pad_with_silence] raises [ValueError]. *)
Theorem pad_with_silence_rejects_negative (self : AudioAugmentor) (audio : list A)
    (silence_before silence_after : float) (b a : Z) :
  py_int (silence_before * py_float (sample_rate self))%float = Ok b ->
  py_int (silence_after * py_float (sample_rate self))%float = Ok a ->
  b < 0 \/ a < 0 ->
  exists msg,
    pad_with_silence self audio silence_before silence_after = Raise (ValueError msg).
Proof.
  intros Hb Ha Hneg.
  unfold pad_with_silence. rewrite Hb. simpl bind. rewrite Ha. simpl bind.
  unfold np_zeros.
  destruct (Z.ltb_spec b 0) as [_|Hb0]; [eexists; reflexivity|]. simpl bind.
  destruct (Z.ltb_spec a 0) as [_|Ha0]; [eexists; reflexivity|]. lia.
Qed.
End PadWithSilence.

(** X22 run: the defaults, half a second on each side at 22050 Hz. *)
Lemma pad_with_silence_round_trip_witness :
  exists out,
    pad_with_silence
      {| target_duration := 5; sample_rate := 22050; target_length := 110250 |}
      [1; 2; 3]%float 0.5 0.5 = Ok out /\
    len out = 11025 + 3 + 11025 /\
    py_slice out (Some 11025) (Some (11025 + 3)) = [1; 2; 3]%float.
Proof.
  destruct (pad_with_silence_round_trip (A := float)
              {| target_duration := 5; sample_rate := 22050; target_length := 110250 |}
              [1; 2; 3]%float 0.5 0.5 11025 11025)
    as [out [Hrun [Hlen [Hcut _]]]].
  - simpl. lia.
  - reflexivity.
  - reflexivity.
  - reflexivity.
  - reflexivity.
  - exists out. split; [exact Hrun|]. split; [exact Hlen|exact Hcut].
Defined.

(** X23 run: a negative silence after the signal. *)
Lemma pad_with_silence_rejects_negative_witness :
  exists msg,
    pad_with_silence
      {| target_duration := 5; sample_rate := 22050; target_length := 110250 |}
      [1; 2; 3]%float 0.5 (-0.5) = Raise (ValueError msg).
Proof.
  apply (pad_with_silence_rejects_negative (A := float)
           {| target_duration := 5; sample_rate := 22050; target_length := 110250 |}
           [1; 2; 3]%float 0.5 (-0.5) 11025 (-11025)).
  - reflexivity.
  - reflexivity.
  - right. lia.
Defined.
